(** * VyOS conf-mode scripts: protocols_rip.py and system-login-radius.py

    A shallow embedding of the two configuration scripts
    [src/conf_mode/protocols_rip.py] and [src/conf_mode/system-login-radius.py]
    and of the slice of Python they run on: dynamically typed values,
    exceptions, insertion-ordered dictionaries, and a mutable mapping that
    the four stages [get_config], [verify], [generate] and [apply] share. *)

From Stdlib Require Import String Ascii List Bool Arith ZArith Lia.
Import ListNotations.
Local Open Scope string_scope.

Set Implicit Arguments.
Local Set Warnings "-register-all".

(* ===================================================================== *)
(** * Python values *)
(* ===================================================================== *)

Module Py.

(** The values the scripts handle: [None], booleans, strings, lists and
    dictionaries.  A dictionary keeps its keys in insertion order, as
    Python's [dict] does; keys are strings throughout both scripts. *)
Inductive value : Type :=
| VNone
| VBool (b : bool)
| VStr (s : string)
| VList (l : list value)
| VDict (d : list (string * value)).

Definition dict := list (string * value).

(** The exceptions that can leave a stage.  [ConfigError] is the one the
    scripts raise themselves; the others are raised by the interpreter or
    the operating system. *)
Inductive exn : Type :=
| ConfigError (msg : string)
| AttributeError
| TypeError
| KeyError (key : string)
| FileNotFoundError (path : string).

Inductive result (A : Type) : Type :=
| Ok (a : A)
| Raise (e : exn).
Arguments Ok {A} a.
Arguments Raise {A} e.

Definition rbind {A B} (r : result A) (k : A -> result B) : result B :=
  match r with
  | Ok a => k a
  | Raise e => Raise e
  end.

Declare Scope py_scope.
Delimit Scope py_scope with py.
Notation "x <- e ;; k" := (rbind e (fun x => k))
  (at level 61, e at next level, right associativity) : py_scope.
Notation "e ;;; k" := (rbind e (fun _ => k))
  (at level 61, right associativity) : py_scope.
Local Open Scope py_scope.

(** ** Strings *)

Definition dq : string := String (ascii_of_nat 34) EmptyString.
Definition sq : string := String (ascii_of_nat 39) EmptyString.
Definition nl : string := String (ascii_of_nat 10) EmptyString.
Definition tab : string := String (ascii_of_nat 9) EmptyString.
Definition bs : string := String (ascii_of_nat 92) EmptyString.

(** [s.replace(old, new)] for one-character [old] and [new]. *)
Fixpoint replace (old new : ascii) (s : string) : string :=
  match s with
  | EmptyString => EmptyString
  | String c s' =>
      String (if Ascii.eqb c old then new else c) (replace old new s')
  end.

(** [s.split(sep)] for a one-character separator: never the empty list. *)
Fixpoint split_acc (sep : ascii) (acc : string) (s : string) : list string :=
  match s with
  | EmptyString => [acc]
  | String c s' =>
      if Ascii.eqb c sep then acc :: split_acc sep EmptyString s'
      else split_acc sep (acc ++ String c EmptyString) s'
  end.

Definition split (sep : ascii) (s : string) : list string :=
  split_acc sep EmptyString s.

Fixpoint is_prefix (p s : string) : bool :=
  match p, s with
  | EmptyString, _ => true
  | String a p', String b s' => Ascii.eqb a b && is_prefix p' s'
  | String _ _, EmptyString => false
  end.

(** [sub in s] on two strings. *)
Fixpoint contains (sub s : string) : bool :=
  is_prefix sub s ||
  match s with
  | EmptyString => false
  | String _ s' => contains sub s'
  end.

Fixpoint chars (s : string) : list string :=
  match s with
  | EmptyString => []
  | String c s' => String c EmptyString :: chars s'
  end.

Fixpoint join (sep : string) (l : list string) : string :=
  match l with
  | [] => ""
  | [x] => x
  | x :: rest => x ++ sep ++ join sep rest
  end.

(** The pieces [l] one after the other. *)
Definition concat_all (l : list string) : string :=
  fold_right append "" l.

(** ** Dictionaries *)

Fixpoint lookup (k : string) (d : dict) : option value :=
  match d with
  | [] => None
  | (k', v) :: d' => if String.eqb k k' then Some v else lookup k d'
  end.

Definition keys (d : dict) : list string := map fst d.

Definition mem (k : string) (l : list string) : bool :=
  existsb (String.eqb k) l.

(** [d[k] = v]: an existing key keeps its position, a new one goes last. *)
Fixpoint setitem (k : string) (v : value) (d : dict) : dict :=
  match d with
  | [] => [(k, v)]
  | (k', v') :: d' =>
      if String.eqb k k' then (k', v) :: d' else (k', v') :: setitem k v d'
  end.

(** ** Truth, equality, hashing *)

Definition truthy (v : value) : bool :=
  match v with
  | VNone => false
  | VBool b => b
  | VStr s => negb (String.eqb s "")
  | VList l => match l with [] => false | _ => true end
  | VDict d => match d with [] => false | _ => true end
  end.

(** [a or b] *)
Definition py_or (a b : value) : value := if truthy a then a else b.

(** [a == b].  Lists compare element by element, dictionaries key by key
    whatever their order. *)
Fixpoint value_eqb (a b : value) : bool :=
  match a, b with
  | VNone, VNone => true
  | VBool x, VBool y => Bool.eqb x y
  | VStr x, VStr y => String.eqb x y
  | VList xs, VList ys =>
      (fix go (xs ys : list value) : bool :=
         match xs, ys with
         | [], [] => true
         | x :: xs', y :: ys' => value_eqb x y && go xs' ys'
         | _, _ => false
         end) xs ys
  | VDict d1, VDict d2 =>
      Nat.eqb (length d1) (length d2) &&
      (fix go (d : dict) : bool :=
         match d with
         | [] => true
         | (k, v) :: d' =>
             match lookup k d2 with
             | Some w => value_eqb v w
             | None => false
             end && go d'
         end) d1
  | _, _ => false
  end.

Definition hashable (v : value) : bool :=
  match v with
  | VList _ | VDict _ => false
  | _ => true
  end.

(** ** Operators and methods, with the exceptions they raise *)

(** [x in c] *)
Definition py_in (x c : value) : result bool :=
  match c with
  | VDict d =>
      if hashable x
      then Ok match x with VStr k => mem k (keys d) | _ => false end
      else Raise TypeError
  | VList l => Ok (existsb (value_eqb x) l)
  | VStr s =>
      match x with
      | VStr sub => Ok (contains sub s)
      | _ => Raise TypeError
      end
  | VNone | VBool _ => Raise TypeError
  end.

(** [c[k]] for a string [k] *)
Definition py_getitem (c : value) (k : string) : result value :=
  match c with
  | VDict d =>
      match lookup k d with
      | Some v => Ok v
      | None => Raise (KeyError k)
      end
  | _ => Raise TypeError
  end.

(** [c.get(k, default)] *)
Definition py_get (c : value) (k : string) (default : value) : result value :=
  match c with
  | VDict d =>
      match lookup k d with
      | Some v => Ok v
      | None => Ok default
      end
  | _ => Raise AttributeError
  end.

(** [c.items()] *)
Definition py_items (c : value) : result dict :=
  match c with
  | VDict d => Ok d
  | _ => Raise AttributeError
  end.

(** [s.replace('-', '_')] *)
Definition py_replace_hyphen (v : value) : result value :=
  match v with
  | VStr s => Ok (VStr (replace "-"%char "_"%char s))
  | _ => Raise AttributeError
  end.

(** [len(c)] *)
Definition py_len (c : value) : result nat :=
  match c with
  | VDict d => Ok (length d)
  | VList l => Ok (length l)
  | VStr s => Ok (String.length s)
  | VNone | VBool _ => Raise TypeError
  end.

(** The elements [for x in c] runs over. *)
Definition py_iter (c : value) : result (list value) :=
  match c with
  | VDict d => Ok (map VStr (keys d))
  | VList l => Ok l
  | VStr s => Ok (map VStr (chars s))
  | VNone | VBool _ => Raise TypeError
  end.

(** The elements of [set(c)]: every element has to be hashable. *)
Definition py_set (c : value) : result (list value) :=
  l <- py_iter c ;;
  if forallb hashable l then Ok l else Raise TypeError.

(** [{k1, k2, ...} <= s] for a set [s] given by its elements. *)
Definition subset (ks : list string) (s : list value) : bool :=
  forallb (fun k => existsb (value_eqb (VStr k)) s) ks.

(** ** [str] and [repr]

    [repr] of a string picks its quotes as Python does and escapes the
    backslash, the chosen quote and the ASCII control characters.  A string
    is kept as its UTF-8 bytes, and a byte above 127 is passed through. *)

Definition hex_digit (n : nat) : string :=
  String (ascii_of_nat (if Nat.ltb n 10 then 48 + n else 87 + n)) EmptyString.

Definition repr_char (quote : ascii) (c : ascii) : string :=
  let n := nat_of_ascii c in
  if Ascii.eqb c quote || Ascii.eqb c (ascii_of_nat 92) then bs ++ String c EmptyString
  else if Nat.eqb n 9 then bs ++ "t"
  else if Nat.eqb n 10 then bs ++ "n"
  else if Nat.eqb n 13 then bs ++ "r"
  else if Nat.ltb n 32 || Nat.eqb n 127
       then bs ++ "x" ++ hex_digit (n / 16) ++ hex_digit (n mod 16)
  else String c EmptyString.

Fixpoint repr_chars (quote : ascii) (s : string) : string :=
  match s with
  | EmptyString => EmptyString
  | String c s' => repr_char quote c ++ repr_chars quote s'
  end.

Definition repr_str (s : string) : string :=
  let quote := if contains sq s && negb (contains dq s)
               then ascii_of_nat 34 else ascii_of_nat 39 in
  String quote EmptyString ++ repr_chars quote s ++ String quote EmptyString.

Fixpoint py_repr (v : value) : string :=
  match v with
  | VNone => "None"
  | VBool b => if b then "True" else "False"
  | VStr s => repr_str s
  | VList l =>
      "[" ++ join ", "
        ((fix go (l : list value) : list string :=
            match l with
            | [] => []
            | x :: l' => py_repr x :: go l'
            end) l) ++ "]"
  | VDict d =>
      "{" ++ join ", "
        ((fix go (d : dict) : list string :=
            match d with
            | [] => []
            | (k, x) :: d' => (repr_str k ++ ": " ++ py_repr x) :: go d'
            end) d) ++ "}"
  end.

(** [str(v)], which is also what an f-string and a template print. *)
Definition py_str (v : value) : string :=
  match v with
  | VStr s => s
  | _ => py_repr v
  end.

End Py.

Import Py.
Local Open Scope py_scope.

(* ===================================================================== *)
(** * Stages: state and exceptions *)
(* ===================================================================== *)

(** A stage runs on a state (the mapping it was handed and the part of the
    system it touches) and either returns or raises; what it did to the
    state before raising stays done. *)
Definition M (S A : Type) : Type := S -> result A * S.

Definition ret {S A} (a : A) : M S A := fun s => (Ok a, s).

Definition raise {S A} (e : exn) : M S A := fun s => (Raise e, s).

Definition bind {S A B} (m : M S A) (k : A -> M S B) : M S B :=
  fun s =>
    match m s with
    | (Ok a, s') => k a s'
    | (Raise e, s') => (Raise e, s')
    end.

Definition lift {S A} (r : result A) : M S A := fun s => (r, s).

Definition gets {S A} (f : S -> A) : M S A := fun s => (Ok (f s), s).

Definition modify {S} (f : S -> S) : M S unit := fun s => (Ok tt, f s).

Declare Scope stage_scope.
Delimit Scope stage_scope with stage.
Notation "x <- e ;; k" := (bind e (fun x => k))
  (at level 61, e at next level, right associativity) : stage_scope.
Notation "e ;;; k" := (bind e (fun _ => k))
  (at level 61, right associativity) : stage_scope.

(** [for a in range(n): body] *)
Fixpoint for_range {S} (n : nat) (body : M S unit) : M S unit :=
  match n with
  | O => ret tt
  | S n' => bind body (fun _ => for_range n' body)
  end.

(** How a run of a script ends: it reaches [exit(status)] (or falls off the
    end, status 0) having printed [stdout], or an exception other than the
    one its handler names leaves the script uncaught. *)
Inductive outcome : Type :=
| Exited (status : Z) (stdout : list string)
| Uncaught (e : exn).

(** [try: ... except ConfigError as e: print(e); exit(1)] *)
Definition handle (r : result unit) : outcome :=
  match r with
  | Ok _ => Exited 0 []
  | Raise (ConfigError msg) => Exited 1 [msg]
  | Raise e => Uncaught e
  end.

(* ===================================================================== *)
(** * The configuration store *)
(* ===================================================================== *)

Module Config.

(** Modelled from the spec: [vyos.config.Config] is outside the sources at
    hand.  The store is a tree of named nodes, a node carrying the values
    set on it, queried by path: existence, the scalar value at a path, the
    children at a path, and the subtree at a path flattened to a mapping. *)
Inductive node : Type :=
| Node (values : list string) (children : list (string * node)).

Definition path := list string.

Fixpoint find (p : path) (n : node) : option node :=
  match p with
  | [] => Some n
  | k :: p' =>
      match n with
      | Node _ kids =>
          (fix look (kids : list (string * node)) : option node :=
             match kids with
             | [] => None
             | (k', c) :: rest =>
                 if String.eqb k k' then find p' c else look rest
             end) kids
      end
  end.

(** A [Config] object: the tree and the level set by [set_level]. *)
Record t : Type := mk { tree : node; level : path }.

Definition set_level (p : path) (conf : t) : t :=
  {| tree := tree conf; level := p |}.

Definition full_path (conf : t) (p : path) : path := (level conf ++ p)%list.

Definition exists_ (conf : t) (p : path) : bool :=
  match find (full_path conf p) (tree conf) with
  | Some _ => true
  | None => false
  end.

(** [None] when the node is missing or carries no value. *)
Definition return_value (conf : t) (p : path) : value :=
  match find (full_path conf p) (tree conf) with
  | Some (Node (v :: _) _) => VStr v
  | _ => VNone
  end.

Definition list_nodes (conf : t) (p : path) : list string :=
  match find (full_path conf p) (tree conf) with
  | Some (Node _ kids) => map fst kids
  | None => []
  end.

(** A node without children flattens to its value (a string), its values
    (a list) or, valueless, an empty mapping; a node with children to the
    mapping of its children, keys mangled. *)
Fixpoint node_to_value (mangle : string -> string) (n : node) : value :=
  match n with
  | Node vals [] =>
      match vals with
      | [] => VDict []
      | [v] => VStr v
      | _ => VList (map VStr vals)
      end
  | Node _ kids =>
      VDict ((fix go (kids : list (string * node)) : dict :=
                match kids with
                | [] => []
                | (k, c) :: rest => (mangle k, node_to_value mangle c) :: go rest
                end) kids)
  end.

Definition node_to_dict (mangle : string -> string) (n : node) : dict :=
  match node_to_value mangle n with
  | VDict d => d
  | _ => []
  end.

(** [conf.get_config_dict(path, key_mangling=(old, new), get_first_key=b)]:
    the empty mapping when the subtree does not exist; otherwise the
    subtree's mapping, under the path's last key unless [get_first_key]. *)
Definition get_config_dict (conf : t) (p : path) (old new : ascii)
    (get_first_key : bool) : dict :=
  match find (full_path conf p) (tree conf) with
  | None => []
  | Some n =>
      let d := node_to_dict (replace old new) n in
      if get_first_key then d
      else [(replace old new (last p ""), VDict d)]
  end.

(** Modelled from the spec: [vyos.configdict.dict_merge], a mapping merge
    in which the values already in [destination] win over [source]. *)
Fixpoint merge (source destination : value) : value :=
  match source, destination with
  | VDict sd, VDict dd =>
      VDict ((fix go (sd : dict) (tmp : dict) : dict :=
                match sd with
                | [] => tmp
                | (k, v) :: sd' =>
                    go sd'
                      match lookup k tmp with
                      | None => setitem k v tmp
                      | Some t =>
                          match v with
                          | VDict _ => setitem k (merge v t) tmp
                          | _ => tmp
                          end
                      end
                end) sd dd)
  | _, _ => destination
  end.

Definition dict_merge (source destination : dict) : dict :=
  match merge (VDict source) (VDict destination) with
  | VDict d => d
  | _ => destination
  end.

End Config.

(** Modelled from the spec: [vyos.util.dict_search], the traversal of a
    mapping by a dotted path string, duck-typed: every key but the last is
    followed with [.get(key, {})], the last with [.get(key, None)], so a
    missing key gives [None] and a non-mapping on the way raises. *)
Fixpoint dict_walk (parts : list string) (c : value) : result value :=
  match parts with
  | [] => Ok c
  | [p] => py_get c p VNone
  | p :: rest => c' <- py_get c p (VDict []) ;; dict_walk rest c'
  end.

Definition dict_search (path : string) (my_dict : dict) : result value :=
  if String.eqb path "" then Ok VNone
  else dict_walk (split "."%char path) (VDict my_dict).
Arguments dict_search : simpl never.

(* ===================================================================== *)
(** * protocols_rip.py *)
(* ===================================================================== *)

Module Rip.

Definition frr_daemon : string := "ripd".

(** Modelled from the spec: [vyos.frr.FRRConfig], the daemon reload
    interface, is outside the sources at hand.  Its calls are recorded in
    the order they are made; each is taken to return. *)
Inductive frr_call : Type :=
| load_configuration (daemon : string)
| modify_section (start_pattern replacement : string)
| add_before (before_pattern : string) (addition : value)
| commit_configuration (daemon : string).

(** The mapping [c] that the stages are handed, and the calls made to the
    daemon's configuration so far. *)
Record state : Type := mk_state { mapping : dict; frr_log : list frr_call }.

Definition set_mapping (d : dict) (st : state) : state :=
  {| mapping := d; frr_log := frr_log st |}.

Definition frr (c : frr_call) : M state unit :=
  modify (fun st => {| mapping := mapping st; frr_log := frr_log st ++ [c] |}).

Section Stages.

(** [vyos.xml.defaults], [vyos.configverify.verify_route_maps] and
    [vyos.template.render_to_string] (with the template file it reads) are
    outside the sources at hand; the stages are parametrised by them.
    [verify_route_maps] only reads the mapping it is given. *)
Variable defaults : Config.path -> dict.
Variable verify_route_maps : dict -> result unit.
Variable render_to_string : string -> dict -> string.

Definition get_config (conf : Config.t) : dict :=
  let base := ["protocols"; "rip"] in
  let rip := Config.get_config_dict conf base "-"%char "_"%char true in
  if negb (Config.exists_ conf base) then rip
  else
    let default_values := defaults base in
    let rip := Config.dict_merge default_values rip in
    let base := ["policy"] in
    let tmp := Config.get_config_dict conf base "-"%char "_"%char false in
    Config.dict_merge tmp rip.

(** The four reference checks of [verify], in source order. *)
Definition check_acl_in (rip : dict) : result unit :=
  acl_in <- dict_search "distribute_list.access_list.in" rip ;;
  if truthy acl_in then
    registry <- dict_search "policy.access_list" rip ;;
    present <- py_in acl_in (py_or registry (VList [])) ;;
    if negb present
    then Raise (ConfigError
           ("Inbound ACL " ++ dq ++ py_str acl_in ++ dq ++ " does not exist!"))
    else Ok tt
  else Ok tt.

Definition check_acl_out (rip : dict) : result unit :=
  acl_out <- dict_search "distribute_list.access_list.out" rip ;;
  if truthy acl_out then
    registry <- dict_search "policy.access_list" rip ;;
    present <- py_in acl_out (py_or registry (VList [])) ;;
    if negb present
    then Raise (ConfigError
           ("Outbound ACL " ++ dq ++ py_str acl_out ++ dq ++ " does not exist!"))
    else Ok tt
  else Ok tt.

Definition check_prefix_list_in (rip : dict) : result unit :=
  prefix_list_in <- dict_search "distribute_list.prefix_list.in" rip ;;
  if truthy prefix_list_in then
    mangled <- py_replace_hyphen prefix_list_in ;;
    registry <- dict_search "policy.prefix_list" rip ;;
    present <- py_in mangled (py_or registry (VList [])) ;;
    if negb present
    then Raise (ConfigError
           ("Inbound prefix-list " ++ dq ++ py_str prefix_list_in ++ dq
            ++ " does not exist!"))
    else Ok tt
  else Ok tt.

Definition check_prefix_list_out (rip : dict) : result unit :=
  prefix_list_out <- dict_search "distribute_list.prefix_list.out" rip ;;
  if truthy prefix_list_out then
    mangled <- py_replace_hyphen prefix_list_out ;;
    registry <- dict_search "policy.prefix_list" rip ;;
    present <- py_in mangled (py_or registry (VList [])) ;;
    if negb present
    then Raise (ConfigError
           ("Outbound prefix-list " ++ dq ++ py_str prefix_list_out ++ dq
            ++ " does not exist!"))
    else Ok tt
  else Ok tt.

(** The body of [for interface, interface_options in ...items()]. *)
Definition check_interface (interface : string) (interface_options : value)
  : result unit :=
  has_auth <- py_in (VStr "authentication") interface_options ;;
  (if has_auth then
     auth <- py_getitem interface_options "authentication" ;;
     methods <- py_set auth ;;
     if subset ["md5"; "plaintext_password"] methods
     then Raise (ConfigError
            "Can not use both md5 and plaintext-password at the same time!")
     else Ok tt
   else Ok tt) ;;;
  has_sh <- py_in (VStr "split_horizon") interface_options ;;
  if has_sh then
    sh <- py_getitem interface_options "split_horizon" ;;
    options <- py_set sh ;;
    if subset ["disable"; "poison_reverse"] options
    then Raise (ConfigError
           ("You can not have " ++ dq ++ "split-horizon poison-reverse" ++ dq
            ++ " enabled with " ++ dq ++ "split-horizon disable" ++ dq
            ++ " for " ++ dq ++ interface ++ dq ++ "!"))
    else Ok tt
  else Ok tt.

Fixpoint check_interfaces (items : dict) : result unit :=
  match items with
  | [] => Ok tt
  | (interface, interface_options) :: rest =>
      check_interface interface interface_options ;;;
      check_interfaces rest
  end.

(** What [verify(rip)] computes from the mapping it reads. *)
Definition verify_dict (rip : dict) : result unit :=
  if negb (truthy (VDict rip)) then Ok tt
  else
    check_acl_in rip ;;;
    check_acl_out rip ;;;
    check_prefix_list_in rip ;;;
    check_prefix_list_out rip ;;;
    (if mem "interface" (keys rip) then
       interfaces <- py_getitem (VDict rip) "interface" ;;
       items <- py_items interfaces ;;
       check_interfaces items
     else Ok tt) ;;;
    verify_route_maps rip.

Local Open Scope stage_scope.

Definition verify : M state unit :=
  rip <- gets mapping ;;
  lift (verify_dict rip).

Definition generate : M state unit :=
  rip <- gets mapping ;;
  if negb (truthy (VDict rip)) then
    modify (set_mapping (setitem "new_frr_config" (VStr "") rip))
  else
    modify (set_mapping
              (setitem "new_frr_config"
                 (VStr (render_to_string "frr/rip.frr.tmpl" rip)) rip)).

Definition apply : M state unit :=
  frr (load_configuration frr_daemon) ;;;
  frr (modify_section "key chain \S+" "") ;;;
  frr (modify_section "interface \S+" "") ;;;
  frr (modify_section "router rip" "") ;;;
  rip <- gets mapping ;;
  text <- lift (py_getitem (VDict rip) "new_frr_config") ;;
  frr (add_before "(ip prefix-list .*|route-map .*|line vty)" text) ;;;
  frr (commit_configuration frr_daemon) ;;;
  rip <- gets mapping ;;
  text <- lift (py_getitem (VDict rip) "new_frr_config") ;;
  if value_eqb text (VStr "") then
    for_range 5 (frr (commit_configuration frr_daemon))
  else ret tt.

(** [verify(c); generate(c); apply(c)] on the mapping [c]. *)
Definition stages : M state unit :=
  verify ;;; generate ;;; apply.

(** [__main__]: the mapping comes from [get_config], the stages run inside
    the handler. *)
Definition main (conf : Config.t) : outcome * state :=
  let c := get_config conf in
  let (r, st) := stages {| mapping := c; frr_log := [] |} in
  (handle r, st).

Local Close Scope stage_scope.

End Stages.

Definition count_commits (log : list frr_call) : nat :=
  length (filter (fun c => match c with commit_configuration _ => true | _ => false end) log).

End Rip.

(* ===================================================================== *)
(** * system-login-radius.py *)
(* ===================================================================== *)

Module Radius.

Definition radius_config_file : string := "/etc/pam_radius_auth.conf".

Definition default_config_data : dict :=
  [("server", VList []); ("source_address", VStr "")].

(** [stat.S_IRUSR] and [stat.S_IWUSR] *)
Definition S_IRUSR : Z := 256.
Definition S_IWUSR : Z := 128.

(** ** The system the script acts on *)

Record file : Type := mk_file
  { content : string; owner : Z; group : Z; mode : Z }.

(** The files by path, the password database ([name |-> (uid, gid)]), the
    identity and umask the script runs under, and the commands handed to
    [os.system] so far. *)
Record system : Type := mk_system
  { files : list (string * file);
    passwd : list (string * (Z * Z));
    euid : Z;
    egid : Z;
    umask : Z;
    commands : list string }.

(** The module-level dictionary [default_config_data], which [get_config]
    hands out as [radius] without copying it, and the system. *)
Record state : Type := mk_state { radius : dict; sys : system }.

Definition set_radius (d : dict) (st : state) : state :=
  {| radius := d; sys := sys st |}.

Definition set_files (fs : list (string * file)) (st : state) : state :=
  {| radius := radius st;
     sys := {| files := fs; passwd := passwd (sys st); euid := euid (sys st);
               egid := egid (sys st); umask := umask (sys st);
               commands := commands (sys st) |} |}.

Definition add_command (cmd : string) (st : state) : state :=
  {| radius := radius st;
     sys := {| files := files (sys st); passwd := passwd (sys st);
               euid := euid (sys st); egid := egid (sys st);
               umask := umask (sys st);
               commands := commands (sys st) ++ [cmd] |} |}.

Fixpoint file_at (p : string) (fs : list (string * file)) : option file :=
  match fs with
  | [] => None
  | (q, f) :: fs' => if String.eqb p q then Some f else file_at p fs'
  end.

Fixpoint file_put (p : string) (f : file) (fs : list (string * file))
  : list (string * file) :=
  match fs with
  | [] => [(p, f)]
  | (q, g) :: fs' =>
      if String.eqb p q then (q, f) :: fs' else (q, g) :: file_put p f fs'
  end.

Fixpoint file_remove (p : string) (fs : list (string * file))
  : list (string * file) :=
  match fs with
  | [] => []
  | (q, g) :: fs' =>
      if String.eqb p q then file_remove p fs' else (q, g) :: file_remove p fs'
  end.

Local Open Scope stage_scope.

(** [with open(p, 'w') as f: f.write(text)]: a new file belongs to the
    running identity with mode [0666 & ~umask]; an existing one keeps its
    owner and mode.  The script is taken to have write access to [p]. *)
Definition opened (p text : string) (s : system) : file :=
  match file_at p (files s) with
  | Some g => {| content := text; owner := owner g;
                 group := group g; mode := mode g |}
  | None => {| content := text; owner := euid s; group := egid s;
               mode := Z.land 438 (Z.lnot (umask s)) |}
  end.

Definition write_file (p text : string) : M state unit :=
  modify (fun st =>
    set_files (file_put p (opened p text (sys st)) (files (sys st))) st).

(** [pwd.getpwnam(name)], as the pair [(pw_uid, pw_gid)] *)
Definition getpwnam (name : string) : M state (Z * Z) :=
  fun st =>
    match find (fun e => String.eqb name (fst e)) (passwd (sys st)) with
    | Some (_, ids) => (Ok ids, st)
    | None => (Raise (KeyError name), st)
    end.

(** [os.chown(p, uid, gid)] *)
Definition chown (p : string) (uid gid : Z) : M state unit :=
  fun st =>
    match file_at p (files (sys st)) with
    | Some g =>
        (Ok tt,
         set_files (file_put p {| content := content g; owner := uid;
                                  group := gid; mode := mode g |}
                             (files (sys st))) st)
    | None => (Raise (FileNotFoundError p), st)
    end.

(** [os.chmod(p, m)] *)
Definition chmod (p : string) (m : Z) : M state unit :=
  fun st =>
    match file_at p (files (sys st)) with
    | Some g =>
        (Ok tt,
         set_files (file_put p {| content := content g; owner := owner g;
                                  group := group g; mode := m |}
                             (files (sys st))) st)
    | None => (Raise (FileNotFoundError p), st)
    end.

(** [os.unlink(p)] *)
Definition unlink (p : string) : M state unit :=
  fun st =>
    match file_at p (files (sys st)) with
    | Some _ => (Ok tt, set_files (file_remove p (files (sys st))) st)
    | None => (Raise (FileNotFoundError p), st)
    end.

(** [os.system(cmd)]: the command is run; its exit status is returned, not
    raised, and the script ignores it. *)
Definition os_system (cmd : string) : M state unit :=
  modify (add_command cmd).

(** [try: body except Exception as e: raise wrap(e)] *)
Definition try_except {A} (body : M state A) (wrap : exn -> exn) : M state A :=
  fun st =>
    match body st with
    | (Ok a, st') => (Ok a, st')
    | (Raise e, st') => (Raise (wrap e), st')
    end.

Fixpoint for_each {A} (l : list A) (body : A -> M state unit) : M state unit :=
  match l with
  | [] => ret tt
  | x :: rest => body x ;;; for_each rest body
  end.

Local Close Scope stage_scope.

(** ** The template

    [radius_config_tmpl], as [jinja2.Template(...).render(radius)] expands
    it.  A name missing from the context, or a field missing from an
    object, is undefined: it tests false and prints as nothing.  A [-]
    inside a tag delimiter removes the white space, line ends included, on
    that side of the tag; the one line end that closes the template is
    dropped. *)

Definition jinja_truthy (v : option value) : bool :=
  match v with
  | Some x => truthy x
  | None => false
  end.

Definition jinja_str (v : option value) : string :=
  match v with
  | Some x => py_str x
  | None => ""
  end.

(** [s.name] on an object of the context *)
Definition jinja_attr (s : value) (name : string) : option value :=
  match s with
  | VDict d => lookup name d
  | _ => None
  end.

(** One pass of the [for s in server] loop:
    [{%- if not s.disabled -%}
     {{ s.address }}:{{ s.port }} {{ s.key }} {{ s.timeout }} {% if source_address -%}{{ source_address }}{% endif %}
     {% endif %}]
    with nothing before or after it, since the tags around it strip. *)
Definition server_line (source_address : option value) (s : value) : string :=
  if negb (jinja_truthy (jinja_attr s "disabled")) then
    jinja_str (jinja_attr s "address") ++ ":" ++ jinja_str (jinja_attr s "port")
    ++ " " ++ jinja_str (jinja_attr s "key")
    ++ " " ++ jinja_str (jinja_attr s "timeout") ++ " "
    ++ (if jinja_truthy source_address then jinja_str source_address else "")
    ++ nl
  else "".

Definition tmpl_head : string :=
  nl ++ "# Automatically generated by VyOS" ++ nl
  ++ "# RADIUS configuration file".

Definition tmpl_columns : string :=
  nl ++ "# server[:port]         shared_secret                           timeout (s)     source_ip" ++ nl.

Definition tmpl_tail : string :=
  nl ++ nl ++ "priv-lvl 15" ++ nl ++ "mapped_priv_user radius_priv_user" ++ nl.

Definition render (context : dict) : result string :=
  let server := lookup "server" context in
  let source_address := lookup "source_address" context in
  body <- match server with
          | Some srv =>
              if truthy srv then
                items <- py_iter srv ;;
                Ok (tmpl_columns
                    ++ concat_all (map (server_line source_address) items)
                    ++ tmpl_tail)
              else Ok ""
          | None => Ok ""
          end ;;
  Ok (tmpl_head ++ body ++ nl).

(** ** The stages *)

Local Open Scope stage_scope.

Definition base_level : Config.path := ["system"; "login"; "radius"].

(** The dictionary [server_cfg] built for one server node. *)
Definition server_cfg (conf : Config.t) (server : string) : dict :=
  let server_cfg :=
    [("address", VStr server); ("disabled", VBool false); ("key", VStr "");
     ("port", VStr "1812"); ("timeout", VStr "2")] in
  let conf := Config.set_level (base_level ++ ["server"; server])%list conf in
  let server_cfg :=
    if Config.exists_ conf ["disable"]
    then setitem "disabled" (VBool true) server_cfg else server_cfg in
  let server_cfg :=
    if Config.exists_ conf ["key"]
    then setitem "key" (Config.return_value conf ["key"]) server_cfg
    else server_cfg in
  let server_cfg :=
    if Config.exists_ conf ["port"]
    then setitem "port" (Config.return_value conf ["port"]) server_cfg
    else server_cfg in
  let server_cfg :=
    if Config.exists_ conf ["timeout"]
    then setitem "timeout" (Config.return_value conf ["timeout"]) server_cfg
    else server_cfg in
  server_cfg.

(** [radius['server'].append(server_cfg)] *)
Definition append_server (cfg : dict) : M state unit :=
  radius <- gets radius ;;
  servers <- lift (py_getitem (VDict radius) "server") ;;
  match servers with
  | VList l =>
      modify (set_radius (setitem "server" (VList (l ++ [VDict cfg])) radius))
  | _ => raise AttributeError
  end.

(** [get_config()]: [radius] is the state's dictionary itself, and the
    returned mapping is that same dictionary. *)
Definition get_config (running : Config.node) : M state unit :=
  let conf := Config.mk running [] in
  if negb (Config.exists_ conf base_level) then ret tt
  else
    let conf := Config.set_level base_level conf in
    (if Config.exists_ conf ["source-address"] then
       radius <- gets radius ;;
       modify (set_radius
                 (setitem "source_address"
                    (Config.return_value conf ["source-address"]) radius))
     else ret tt) ;;;
    for_each (Config.list_nodes conf ["server"])
      (fun server => append_server (server_cfg conf server)).

(** The loop of [verify]: [fail] stays set while every server is disabled. *)
Fixpoint all_disabled (servers : list value) (fail : bool) : result bool :=
  match servers with
  | [] => Ok fail
  | server :: rest =>
      (disabled <- py_getitem server "disabled" ;;
       all_disabled rest (if negb (truthy disabled) then false else fail))%py
  end.

(** What [verify(radius)] computes from the mapping it reads. *)
Definition verify_dict (radius : dict) : result unit :=
  (servers <- py_getitem (VDict radius) "server" ;;
   n <- py_len servers ;;
   if Nat.ltb 0 n then
     items <- py_iter servers ;;
     fail <- all_disabled items true ;;
     if fail
     then Raise (ConfigError "At least one RADIUS server must be active.")
     else Ok tt
   else Ok tt)%py.

Definition verify : M state unit :=
  radius <- gets radius ;;
  lift (verify_dict radius).

Definition generate : M state unit :=
  radius <- gets radius ;;
  servers <- lift (py_getitem (VDict radius) "server") ;;
  n <- lift (py_len servers) ;;
  if Nat.ltb 0 n then
    config_text <- lift (render radius) ;;
    write_file radius_config_file config_text ;;;
    root <- getpwnam "root" ;;
    let uid := fst root in
    root <- getpwnam "root" ;;
    let gid := snd root in
    chown radius_config_file uid gid ;;;
    chmod radius_config_file (Z.lor S_IRUSR S_IWUSR)
  else
    unlink radius_config_file.

Definition pam_enable : string :=
  "DEBIAN_FRONTEND=noninteractive pam-auth-update --package --enable radius".

Definition pam_remove : string :=
  "DEBIAN_FRONTEND=noninteractive pam-auth-update --package --remove radius".

Definition pad26 : string := "                          ".
Definition pad19 : string := "                   ".

Definition nss_enable : string :=
  "sed -i -e '/\smapname/b' " ++ pad26
  ++ "-e '/^passwd:/s/\s\s*/&mapuid /' " ++ pad26
  ++ "-e '/^passwd:.*#/s/#.*/mapname &/' " ++ pad26
  ++ "-e '/^passwd:[^#]*$/s/$/ mapname &/' " ++ pad26
  ++ "-e '/^group:.*#/s/#.*/ mapname &/' " ++ pad26
  ++ "-e '/^group:[^#]*$/s/: */&mapname /' " ++ pad26
  ++ "/etc/nsswitch.conf".

Definition nss_remove : string :=
  "sed -i -e '/^passwd:.*mapuid[ " ++ tab ++ "]/s/mapuid[ " ++ tab ++ "]//' "
  ++ pad19
  ++ "-e '/^passwd:.*[ " ++ tab ++ "]mapname/s/[ " ++ tab ++ "]mapname//' "
  ++ pad19
  ++ "-e '/^group:.*[ " ++ tab ++ "]mapname/s/[ " ++ tab ++ "]mapname//' "
  ++ pad19
  ++ "-e 's/[ " ++ tab ++ "]*$//' " ++ pad19
  ++ "/etc/nsswitch.conf".

(** [str(e)] as far as the model tracks it: the interpreter's wording for
    an [AttributeError] or a [TypeError] is not kept. *)
Definition exn_str (e : exn) : string :=
  match e with
  | ConfigError msg => msg
  | KeyError k => repr_str k
  | FileNotFoundError p =>
      "[Errno 2] No such file or directory: " ++ repr_str p
  | AttributeError | TypeError => ""
  end.

Definition apply : M state unit :=
  radius <- gets radius ;;
  servers <- lift (py_getitem (VDict radius) "server") ;;
  n <- lift (py_len servers) ;;
  if Nat.ltb 0 n then
    try_except
      (os_system pam_enable ;;; os_system nss_enable)
      (fun e => ConfigError ("RADIUS configuration failed: " ++ exn_str e))
  else
    try_except
      (os_system pam_remove ;;; os_system nss_remove)
      (fun _ => ConfigError "Removing RADIUS configuration failed").

(** [c = get_config(); verify(c); generate(c); apply(c)] *)
Definition stages (running : Config.node) : M state unit :=
  get_config running ;;; verify ;;; generate ;;; apply.

(** [__main__], started on a system [s] with the module freshly loaded. *)
Definition main (running : Config.node) (s : system) : outcome * state :=
  let (r, st) := stages running {| radius := default_config_data; sys := s |} in
  (handle r, st).

Local Close Scope stage_scope.

End Radius.

(* ===================================================================== *)
(** * Vocabulary of the statements *)
(* ===================================================================== *)

Module RipSpec.

(** The four references [verify] resolves against the policy mapping. *)
Inductive reference : Type := AclIn | AclOut | PrefixIn | PrefixOut.

Definition ref_path (r : reference) : string :=
  match r with
  | AclIn => "distribute_list.access_list.in"
  | AclOut => "distribute_list.access_list.out"
  | PrefixIn => "distribute_list.prefix_list.in"
  | PrefixOut => "distribute_list.prefix_list.out"
  end.

Definition ref_registry (r : reference) : string :=
  match r with
  | AclIn | AclOut => "policy.access_list"
  | PrefixIn | PrefixOut => "policy.prefix_list"
  end.

(** The key a name is looked up under: verbatim for an access-list, with
    hyphens turned into underscores for a prefix-list. *)
Definition ref_key (r : reference) (n : string) : string :=
  match r with
  | AclIn | AclOut => n
  | PrefixIn | PrefixOut => replace "-"%char "_"%char n
  end.

Definition ref_label (r : reference) : string :=
  match r with
  | AclIn => "Inbound ACL"
  | AclOut => "Outbound ACL"
  | PrefixIn => "Inbound prefix-list"
  | PrefixOut => "Outbound prefix-list"
  end.

(** The error text, which quotes the name as it was written. *)
Definition ref_message (r : reference) (n : string) : string :=
  ref_label r ++ " " ++ dq ++ n ++ dq ++ " does not exist!".

Definition ref_check (r : reference) : dict -> result unit :=
  match r with
  | AclIn => Rip.check_acl_in
  | AclOut => Rip.check_acl_out
  | PrefixIn => Rip.check_prefix_list_in
  | PrefixOut => Rip.check_prefix_list_out
  end.

(** The keys of the registry at [path]: none when it is absent. *)
Definition registry_keys (path : string) (rip : dict) : option (list string) :=
  match dict_search path rip with
  | Ok (VDict d) => Some (keys d)
  | Ok VNone => Some []
  | _ => None
  end.

(** [r] names [n]: the path leads to the non-empty string [n]. *)
Definition names (r : reference) (rip : dict) (n : string) : Prop :=
  dict_search (ref_path r) rip = Ok (VStr n) /\ n <> "".

(** [n], named by [r], is missing from the registry under its key. *)
Definition dangling (r : reference) (rip : dict) (n : string) : Prop :=
  names r rip n /\
  exists ks, registry_keys (ref_registry r) rip = Some ks
             /\ mem (ref_key r n) ks = false.

(** The same with the name taken verbatim. *)
Definition dangling_verbatim (r : reference) (rip : dict) (n : string) : Prop :=
  names r rip n /\
  exists ks, registry_keys (ref_registry r) rip = Some ks
             /\ mem n ks = false.

(** A reference is a string when it is there, a registry a mapping. *)
Definition ref_ok (r : reference) (rip : dict) : bool :=
  match dict_search (ref_path r) rip with
  | Ok VNone | Ok (VStr _) => true
  | _ => false
  end.

Definition registry_ok (path : string) (rip : dict) : bool :=
  match registry_keys path rip with
  | Some _ => true
  | None => false
  end.

Definition refs_ok (rip : dict) : bool :=
  ref_ok AclIn rip && ref_ok AclOut rip && ref_ok PrefixIn rip
  && ref_ok PrefixOut rip
  && registry_ok "policy.access_list" rip
  && registry_ok "policy.prefix_list" rip.

(** An option set is a collection of hashable values when it is there. *)
Definition set_ok (v : option value) : bool :=
  match v with
  | None => true
  | Some x => match py_set x with Ok _ => true | Raise _ => false end
  end.

Definition iface_ok (interface_options : value) : bool :=
  match interface_options with
  | VDict o => set_ok (lookup "authentication" o)
               && set_ok (lookup "split_horizon" o)
  | _ => false
  end.

Definition interfaces_ok (rip : dict) : bool :=
  match lookup "interface" rip with
  | None => true
  | Some (VDict ifs) => forallb (fun e => iface_ok (snd e)) ifs
  | Some _ => false
  end.

Definition well_formed (rip : dict) : bool :=
  refs_ok rip && interfaces_ok rip.

(** The options under [v] contain both [k1] and [k2]. *)
Definition has_both (k1 k2 : string) (v : option value) : bool :=
  match v with
  | Some (VDict d) => mem k1 (keys d) && mem k2 (keys d)
  | _ => false
  end.

Definition conflicting (interface_options : value) : bool :=
  match interface_options with
  | VDict o =>
      has_both "md5" "plaintext_password" (lookup "authentication" o)
      || has_both "disable" "poison_reverse" (lookup "split_horizon" o)
  | _ => false
  end.

(** One option set of an interface: a test for two keys under [field]. *)
Definition check_pair (o : dict) (field k1 k2 msg : string) : result unit :=
  rbind (py_in (VStr field) (VDict o))
    (fun has =>
       if has then
         rbind (py_getitem (VDict o) field)
           (fun v =>
              rbind (py_set v)
                (fun s =>
                   if subset [k1; k2] s then Raise (ConfigError msg)
                   else Ok tt))
       else Ok tt).

(** The calls [apply] makes up to and including its first commit. *)
Definition apply_prelude (text : value) : list Rip.frr_call :=
  [Rip.load_configuration Rip.frr_daemon;
   Rip.modify_section "key chain \S+" "";
   Rip.modify_section "interface \S+" "";
   Rip.modify_section "router rip" "";
   Rip.add_before "(ip prefix-list .*|route-map .*|line vty)" text;
   Rip.commit_configuration Rip.frr_daemon].

(** The reference checks [rs] in a row, then [k]. *)
Fixpoint seq_checks (rs : list reference) (rip : dict) (k : result unit)
  : result unit :=
  match rs with
  | [] => k
  | r :: rs' => rbind (ref_check r rip) (fun _ => seq_checks rs' rip k)
  end.

Definition all_refs : list reference := [AclIn; AclOut; PrefixIn; PrefixOut].

(** Sample inputs. *)

Definition no_route_maps : dict -> result unit := fun _ => Ok tt.
Definition no_defaults : Config.path -> dict := fun _ => [].
Definition sample_render : string -> dict -> string :=
  fun _ _ => "router rip" ++ nl.

(** A prefix-list written [a-b], registered under the key [a_b]. *)
Definition rip_hyphen : dict :=
  [("distribute_list", VDict [("prefix_list", VDict [("in", VStr "a-b")])]);
   ("policy", VDict [("prefix_list", VDict [("a_b", VDict [])])])].

(** An access-list reference to [7] with only [5] defined. *)
Definition rip_dangling_acl : dict :=
  [("distribute_list", VDict [("access_list", VDict [("out", VStr "7")])]);
   ("policy", VDict [("access_list", VDict [("5", VDict [])])])].

(** An interface with both authentication methods. *)
Definition rip_both_auth : dict :=
  [("interface",
    VDict [("eth0", VDict []);
           ("eth1", VDict [("authentication",
                            VDict [("md5", VDict [("1", VDict [])]);
                                   ("plaintext_password", VStr "secret")])])])].

End RipSpec.

Module RadiusSpec.
Import Radius.

(** A server entry whose [disabled] field is there and true. *)
Definition is_disabled (s : value) : bool :=
  match s with
  | VDict d =>
      match lookup "disabled" d with
      | Some v => truthy v
      | None => false
      end
  | _ => false
  end.

(** A server entry whose [disabled] field is there and false. *)
Definition is_enabled (s : value) : bool :=
  match s with
  | VDict d =>
      match lookup "disabled" d with
      | Some v => negb (truthy v)
      | None => false
      end
  | _ => false
  end.

(** A server entry with a [disabled] field. *)
Definition has_flag (s : value) : bool := is_disabled s || is_enabled s.

Definition all_disabled_message : string :=
  "At least one RADIUS server must be active.".

(** The line of the rendered file for one server. *)
Definition entry_line (source_address : option value) (s : value) : string :=
  jinja_str (jinja_attr s "address") ++ ":" ++ jinja_str (jinja_attr s "port")
  ++ " " ++ jinja_str (jinja_attr s "key")
  ++ " " ++ jinja_str (jinja_attr s "timeout") ++ " "
  ++ (if jinja_truthy source_address then jinja_str source_address else "")
  ++ nl.

(** The rendered file around the server lines [lines]. *)
Definition rendered (lines : string) : string :=
  tmpl_head ++ (tmpl_columns ++ lines ++ tmpl_tail) ++ nl.

(** The [Config] object as [get_config] has it inside one server node. *)
Definition server_conf (running : Config.node) (server : string) : Config.t :=
  Config.mk running (base_level ++ ["server"; server])%list.

Definition server_names (running : Config.node) : list string :=
  Config.list_nodes (Config.mk running base_level) ["server"].

Definition is_str (v : option value) : bool :=
  match v with
  | Some (VStr _) => true
  | _ => false
  end.

(** The store gives a value for every [key], [port] and [timeout] node
    that exists under a server. *)
Definition carries_value (conf : Config.t) (f : string) : bool :=
  negb (Config.exists_ conf [f]) || is_str (Some (Config.return_value conf [f])).

Definition values_present (running : Config.node) : bool :=
  forallb (fun server =>
             forallb (carries_value (server_conf running server))
                     ["key"; "port"; "timeout"])
          (server_names running).

(** The value of field [f] of a server: the node's when there is one, the
    default otherwise. *)
Definition field_value (conf : Config.t) (f default : string) : value :=
  if Config.exists_ conf [f] then Config.return_value conf [f]
  else VStr default.

(** The [(uid, gid)] the password database gives for [name]. *)
Definition ids_of (name : string) (s : system) : option (Z * Z) :=
  option_map snd (find (fun e => String.eqb name (fst e)) (passwd s)).

(** Mode [0600]: read and write for the owner, nothing for anyone else. *)
Definition owner_only : Z := 384.

(** Sample inputs. *)

Definition leaf (v : string) : Config.node := Config.Node [v] [].
Definition flag : Config.node := Config.Node [] [].
Definition branch (kids : list (string * Config.node)) : Config.node :=
  Config.Node [] kids.

Definition tree_empty : Config.node := branch [].

(** [system login radius] with [10.0.0.1] disabled and [10.0.0.2] enabled *)
Definition tree_two_servers : Config.node :=
  branch
    [("system",
      branch
        [("login",
          branch
            [("radius",
              branch
                [("source-address", leaf "192.0.2.1");
                 ("server",
                  branch
                    [("10.0.0.1", branch [("disable", flag); ("key", leaf "k1")]);
                     ("10.0.0.2", branch [("key", leaf "k2");
                                          ("port", leaf "1813");
                                          ("timeout", leaf "5")])])])])])].

(** [system login radius] with its only server disabled *)
Definition tree_all_disabled : Config.node :=
  branch
    [("system",
      branch
        [("login",
          branch
            [("radius",
              branch
                [("server",
                  branch
                    [("10.0.0.1", branch [("disable", flag);
                                          ("key", leaf "k1")])])])])])].

(** [system login radius] with a source address and no server *)
Definition tree_source_only : Config.node :=
  branch
    [("system",
      branch
        [("login",
          branch [("radius", branch [("source-address", leaf "192.0.2.1")])])])].

(** A stage that leaves the mapping as it found it, whatever it returns. *)
Definition keeps_radius {A : Type} (m : M state A) : Prop :=
  forall st, radius (snd (m st)) = radius st.

Definition sys_bare : system :=
  {| files := []; passwd := [("root", (0, 0)%Z)]; euid := 0; egid := 0;
     umask := 18; commands := [] |}.

Definition server_off : value :=
  VDict [("address", VStr "10.0.0.1"); ("disabled", VBool true);
         ("key", VStr "k1"); ("port", VStr "1812"); ("timeout", VStr "2")].

Definition server_on : value :=
  VDict [("address", VStr "10.0.0.2"); ("disabled", VBool false);
         ("key", VStr "k2"); ("port", VStr "1813"); ("timeout", VStr "5")].

Definition radius_two : dict :=
  [("server", VList [server_off; server_on]);
   ("source_address", VStr "192.0.2.1")].

End RadiusSpec.

(* ===================================================================== *)
(** * The rest of system-login-radius.py *)
(* ===================================================================== *)

Module Users.
Import Radius.

Local Open Scope stage_scope.

(** [pwd.getpwall()]: every entry of the password database, in order. *)
Definition getpwall : M state (list (string * (Z * Z))) :=
  gets (fun st => passwd (sys st)).

(** [uid in range(lo, hi)] for an integer [uid] *)
Definition in_range (uid lo hi : Z) : bool :=
  (Z.leb lo uid && Z.ltb uid hi)%bool.

(** The loop of [get_local_users] over the entries still to visit, with
    the list built so far. *)
Fixpoint local_users_loop (entries : list (string * (Z * Z)))
    (local_users : list string) : M state (list string) :=
  match entries with
  | [] => ret local_users
  | p :: rest =>
      let username := fst p in
      pw <- getpwnam username ;;
      let uid := fst pw in
      if in_range uid 1000 29999 then
        if negb (mem username ["radius_user"; "radius_priv_user"]) then
          local_users_loop rest (local_users ++ [username])%list
        else local_users_loop rest local_users
      else local_users_loop rest local_users
  end.

Definition get_local_users : M state (list string) :=
  entries <- getpwall ;;
  local_users_loop entries [].

Local Close Scope stage_scope.

End Users.

(* ===================================================================== *)
(** * Further vocabulary *)
(* ===================================================================== *)

Module RipMore.
Import RipSpec.

(** The place of a reference in the order [verify] checks them. *)
Definition ref_rank (r : reference) : nat :=
  match r with
  | AclIn => 0
  | AclOut => 1
  | PrefixIn => 2
  | PrefixOut => 3
  end.

(** An option set that is a mapping when it is there. *)
Definition dict_or_absent (v : option value) : bool :=
  match v with
  | None | Some (VDict _) => true
  | Some _ => false
  end.

Definition iface_plain (interface_options : value) : bool :=
  match interface_options with
  | VDict o => dict_or_absent (lookup "authentication" o)
               && dict_or_absent (lookup "split_horizon" o)
  | _ => false
  end.

Definition interfaces_plain (rip : dict) : bool :=
  match lookup "interface" rip with
  | None => true
  | Some (VDict ifs) => forallb (fun e => iface_plain (snd e)) ifs
  | Some _ => false
  end.

Definition auth_conflict (interface_options : value) : bool :=
  match interface_options with
  | VDict o => has_both "md5" "plaintext_password" (lookup "authentication" o)
  | _ => false
  end.

Definition auth_message : string :=
  "Can not use both md5 and plaintext-password at the same time!".

Definition split_horizon_message (interface : string) : string :=
  "You can not have " ++ dq ++ "split-horizon poison-reverse" ++ dq
  ++ " enabled with " ++ dq ++ "split-horizon disable" ++ dq
  ++ " for " ++ dq ++ interface ++ dq ++ "!".

(** The text [verify] raises for a conflicting interface: the
    authentication conflict is tested first and does not say where. *)
Definition conflict_message (interface : string) (interface_options : value)
  : string :=
  if auth_conflict interface_options then auth_message
  else split_horizon_message interface.

(** The tail of [verify] after the reference checks. *)
Definition after_refs (vrm : dict -> result unit) (rip : dict) : result unit :=
  rbind (if mem "interface" (keys rip)
         then rbind (py_getitem (VDict rip) "interface")
                (fun interfaces => rbind (py_items interfaces) Rip.check_interfaces)
         else Ok tt)
    (fun _ => vrm rip).


(** Sample inputs. *)

(** Both access-list references dangle. *)
Definition rip_two_dangling : dict :=
  [("distribute_list",
    VDict [("access_list", VDict [("out", VStr "7"); ("in", VStr "9")])]);
   ("policy", VDict [("access_list", VDict [("5", VDict [])])])].

(** [eth0] is fine, [eth1] has both split-horizon options. *)
Definition rip_split_horizon : dict :=
  [("interface",
    VDict [("eth0", VDict [("split_horizon", VDict [("disable", VDict [])])]);
           ("eth1", VDict [("split_horizon",
                            VDict [("disable", VDict []);
                                   ("poison_reverse", VDict [])])])])].

(** A store with [protocols rip] and the access-list it refers to. *)
Definition tree_rip : Config.node :=
  RadiusSpec.branch
    [("protocols",
      RadiusSpec.branch
        [("rip",
          RadiusSpec.branch
            [("distribute-list",
              RadiusSpec.branch
                [("access-list",
                  RadiusSpec.branch [("in", RadiusSpec.leaf "5")])]);
             ("interface",
              RadiusSpec.branch [("eth0", RadiusSpec.flag)])])]);
     ("policy",
      RadiusSpec.branch
        [("access-list", RadiusSpec.branch [("5", RadiusSpec.flag)])])].

(** A mapping every check accepts. *)
Definition rip_clean : dict :=
  [("distribute_list", VDict [("access_list", VDict [("in", VStr "5")])]);
   ("interface", VDict [("eth0", VDict [])]);
   ("policy", VDict [("access_list", VDict [("5", VDict [])])])].

End RipMore.

Module RadiusMore.
Import Radius RadiusSpec.

(** The entries [get_config] makes for the server nodes of the store. *)
Definition entries (running : Config.node) : list value :=
  map (fun n => VDict (server_cfg (Config.mk running base_level) n))
    (if Config.exists_ (Config.mk running []) base_level
     then server_names running else []).

(** The source address [get_config] reads from the store. *)
Definition source_address_of (running : Config.node) (old : value) : value :=
  if Config.exists_ (Config.mk running []) base_level
     && Config.exists_ (Config.mk running base_level) ["source-address"]
  then Config.return_value (Config.mk running base_level) ["source-address"]
  else old.

(** The mapping [get_config] leaves when it starts from [d] holding the
    servers [l]. *)
Definition configured (running : Config.node) (d : dict) (l : list value)
  : dict :=
  setitem "server" (VList (l ++ entries running))
    (if Config.exists_ (Config.mk running []) base_level
        && Config.exists_ (Config.mk running base_level) ["source-address"]
     then setitem "source_address"
            (Config.return_value (Config.mk running base_level)
               ["source-address"]) d
     else d).

(** The uid [getpwnam] reports for [name]. *)
Definition uid_of (name : string) (s : system) : option Z :=
  option_map fst (ids_of name s).

(** The test [get_local_users] puts an entry of the database to. *)
Definition is_local_user (s : system) (p : string * (Z * Z)) : bool :=
  match uid_of (fst p) s with
  | Some uid =>
      Users.in_range uid 1000 29999
      && negb (mem (fst p) ["radius_user"; "radius_priv_user"])
  | None => false
  end.

(** A stage that touches no file but the RADIUS one, nor the password
    database, the running identity or the commands. *)
Definition keeps_others {A : Type} (m : M state A) : Prop :=
  forall st,
    (forall p, p <> radius_config_file ->
               file_at p (files (sys (snd (m st)))) = file_at p (files (sys st)))
    /\ passwd (sys (snd (m st))) = passwd (sys st)
    /\ euid (sys (snd (m st))) = euid (sys st)
    /\ egid (sys (snd (m st))) = egid (sys st)
    /\ umask (sys (snd (m st))) = umask (sys st)
    /\ commands (sys (snd (m st))) = commands (sys st).

(** The server nodes [get_config] visits. *)
Definition configured_names (running : Config.node) : list string :=
  if Config.exists_ (Config.mk running []) base_level
  then server_names running else [].

(** The server node [n] has a [disable] child. *)
Definition node_disabled (running : Config.node) (n : string) : bool :=
  Config.exists_ (server_conf running n) ["disable"].

(** The mapping [get_config] returns on a freshly loaded module. *)
Definition fresh_mapping (running : Config.node) : dict :=
  [("server", VList (entries running));
   ("source_address", source_address_of running (VStr ""))].

(** The mapping with its server list emptied. *)
Definition without_servers (st : state) : state :=
  set_radius (setitem "server" (VList []) (radius st)) st.


(** Sample inputs. *)

Definition sys_users : system :=
  {| files := [("/etc/hostname",
                {| content := "vyos"; owner := 0; group := 0; mode := 420 |})];
     passwd := [("root", (0, 0)%Z); ("vyos", (1000, 100)%Z);
                ("radius_user", (1001, 100)%Z); ("nobody", (65534, 65534)%Z);
                ("edge", (29999, 100)%Z); ("last", (29998, 100)%Z)];
     euid := 0; egid := 0; umask := 18; commands := [] |}.

(** A system on which the RADIUS file is already there. *)
Definition sys_configured : system :=
  {| files := [("/etc/pam_radius_auth.conf",
                {| content := "old"; owner := 0; group := 0; mode := 384 |})];
     passwd := [("root", (0, 0)%Z)];
     euid := 0; egid := 0; umask := 18; commands := [] |}.

End RadiusMore.

(* ===================================================================== *)
(** * Properties of protocols_rip.py *)
(* ===================================================================== *)

Unset Implicit Arguments.

Module DictFacts.

Lemma lookup_setitem_eq (k : string) (v : value) (d : dict) :
  lookup k (setitem k v d) = Some v.
Proof.
  induction d as [| [k' v'] d IH]; simpl.
  - now rewrite String.eqb_refl.
  - destruct (String.eqb k k') eqn:E; simpl; now rewrite E.
Qed.

Lemma lookup_setitem_neq (k k' : string) (v : value) (d : dict) :
  k <> k' -> lookup k' (setitem k v d) = lookup k' d.
Proof.
  intros Hne. induction d as [| [k0 v0] d IH]; simpl.
  - apply String.eqb_neq in Hne. rewrite String.eqb_sym in Hne.
    now rewrite Hne.
  - destruct (String.eqb k k0) eqn:E; simpl.
    + apply String.eqb_eq in E. subst k0.
      apply String.eqb_neq in Hne. rewrite String.eqb_sym in Hne.
      now rewrite Hne.
    + now rewrite IH.
Qed.

(** Setting a key leaves the other entries as they were, order included. *)
Lemma setitem_others (k : string) (v : value) (d : dict) :
  filter (fun e => negb (String.eqb k (fst e))) (setitem k v d)
  = filter (fun e => negb (String.eqb k (fst e))) d.
Proof.
  induction d as [| [k' v'] d IH]; simpl.
  - now rewrite String.eqb_refl.
  - destruct (String.eqb k k') eqn:E; simpl; rewrite E; simpl;
      [reflexivity | now rewrite IH].
Qed.

End DictFacts.

Module RipFacts.
Import Rip RipSpec.

(** ** Absent subtree *)

Lemma exists_false_find (conf : Config.t) (p : Config.path) :
  Config.exists_ conf p = false ->
  Config.find (Config.full_path conf p) (Config.tree conf) = None.
Proof.
  unfold Config.exists_.
  destruct (Config.find _ _); [discriminate | reflexivity].
Qed.

Lemma get_config_dict_absent (conf : Config.t) (p : Config.path)
    (old new : ascii) (b : bool) :
  Config.exists_ conf p = false ->
  Config.get_config_dict conf p old new b = [].
Proof.
  intros H. unfold Config.get_config_dict.
  now rewrite (exists_false_find _ _ H).
Qed.

Lemma mem_keys_lookup (k : string) (d : dict) :
  mem k (keys d) = match lookup k d with Some _ => true | None => false end.
Proof.
  induction d as [| [k' v] d IH]; simpl; [reflexivity |].
  destruct (String.eqb k k'); simpl; auto.
Qed.

Lemma truthy_name (n : string) : n <> "" -> truthy (VStr n) = true.
Proof.
  intros H. simpl. apply Bool.negb_true_iff. now apply String.eqb_neq.
Qed.

(** ** The reference checks *)

Lemma registry_keys_inv (path : string) (rip : dict) (ks : list string) :
  registry_keys path rip = Some ks ->
  exists reg, dict_search path rip = Ok reg /\
              forall k, py_in (VStr k) (py_or reg (VList [])) = Ok (mem k ks).
Proof.
  unfold registry_keys. intros H.
  destruct (dict_search path rip) as [[| b | s | l | d] | e]; try discriminate;
    inversion H; subst; clear H.
  - exists VNone. split; [reflexivity | intros k; reflexivity].
  - exists (VDict d). split; [reflexivity |].
    intros k. unfold py_or. destruct d as [| p d]; reflexivity.
Qed.

Lemma ref_check_none (r : reference) (rip : dict) :
  dict_search (ref_path r) rip = Ok VNone -> ref_check r rip = Ok tt.
Proof.
  destruct r; simpl; intros H;
    [unfold check_acl_in | unfold check_acl_out
     | unfold check_prefix_list_in | unfold check_prefix_list_out];
    rewrite H; reflexivity.
Qed.

Lemma ref_check_empty (r : reference) (rip : dict) :
  dict_search (ref_path r) rip = Ok (VStr "") -> ref_check r rip = Ok tt.
Proof.
  destruct r; simpl; intros H;
    [unfold check_acl_in | unfold check_acl_out
     | unfold check_prefix_list_in | unfold check_prefix_list_out];
    rewrite H; reflexivity.
Qed.

Lemma ref_check_named (r : reference) (rip : dict) (n : string)
    (ks : list string) :
  dict_search (ref_path r) rip = Ok (VStr n) ->
  n <> "" ->
  registry_keys (ref_registry r) rip = Some ks ->
  ref_check r rip =
    if mem (ref_key r n) ks then Ok tt
    else Raise (ConfigError (ref_message r n)).
Proof.
  intros Hn Hne Hks.
  destruct (registry_keys_inv _ _ _ Hks) as (reg & Hreg & Hin).
  pose proof (truthy_name n Hne) as Ht.
  destruct r; cbn [ref_path ref_registry ref_key ref_check] in *;
    [unfold check_acl_in | unfold check_acl_out
     | unfold check_prefix_list_in | unfold check_prefix_list_out];
    rewrite Hn; unfold rbind at 1; rewrite Ht;
    simpl py_replace_hyphen; rewrite ?Hreg; unfold rbind; rewrite Hin;
    destruct (mem _ ks); reflexivity.
Qed.

Lemma refs_ok_inv (rip : dict) (r : reference) :
  refs_ok rip = true ->
  ref_ok r rip = true /\ registry_ok (ref_registry r) rip = true.
Proof.
  unfold refs_ok. rewrite !Bool.andb_true_iff.
  intros (((((H1 & H2) & H3) & H4) & H5) & H6).
  destruct r; simpl; auto.
Qed.

(** On a well-formed mapping a reference check passes or reports a
    dangling reference; nothing else can come out of it. *)
Lemma ref_check_cases (rip : dict) (r : reference) :
  refs_ok rip = true ->
  ref_check r rip = Ok tt \/
  exists n, dangling r rip n /\
            ref_check r rip = Raise (ConfigError (ref_message r n)).
Proof.
  intros Hwf. destruct (refs_ok_inv rip r Hwf) as [Hr Hreg].
  unfold ref_ok in Hr. unfold registry_ok in Hreg.
  destruct (registry_keys (ref_registry r) rip) as [ks |] eqn:Hks;
    [| discriminate].
  destruct (dict_search (ref_path r) rip) as [[| b | n | l | d] | e] eqn:Hn;
    try discriminate.
  - left. now apply ref_check_none.
  - destruct (String.eqb_spec n "") as [-> | Hne].
    + left. now apply ref_check_empty.
    + rewrite (ref_check_named r rip n ks Hn Hne Hks).
      destruct (mem (ref_key r n) ks) eqn:Hm; [now left | right].
      exists n. split; [| reflexivity].
      split; [split; assumption | exists ks; split; assumption].
Qed.

Lemma dangling_check (rip : dict) (r : reference) (n : string) :
  dangling r rip n ->
  ref_check r rip = Raise (ConfigError (ref_message r n)).
Proof.
  intros [[Hn Hne] (ks & Hks & Hm)].
  now rewrite (ref_check_named r rip n ks Hn Hne Hks), Hm.
Qed.

Lemma seq_checks_cases (rip : dict) (rs : list reference) (k : result unit) :
  refs_ok rip = true ->
  seq_checks rs rip k = k \/
  exists r n, dangling r rip n /\
              seq_checks rs rip k = Raise (ConfigError (ref_message r n)).
Proof.
  intros Hwf. induction rs as [| r rs IH]; simpl; [now left |].
  destruct (ref_check_cases rip r Hwf) as [-> | (n & Hd & ->)]; simpl.
  - exact IH.
  - right. now exists r, n.
Qed.

Lemma seq_checks_dangling (rip : dict) (rs : list reference) (k : result unit)
    (r : reference) (n : string) :
  refs_ok rip = true -> In r rs -> dangling r rip n ->
  exists r' n', dangling r' rip n' /\
                seq_checks rs rip k = Raise (ConfigError (ref_message r' n')).
Proof.
  intros Hwf Hin Hd. induction rs as [| r0 rs IH]; [contradiction |].
  simpl. destruct (ref_check_cases rip r0 Hwf) as [Hok | (n0 & Hd0 & Hraise)].
  - rewrite Hok. simpl. destruct Hin as [-> | Hin].
    + rewrite (dangling_check rip r n Hd) in Hok. discriminate.
    + now apply IH.
  - rewrite Hraise. simpl. now exists r0, n0.
Qed.

Lemma dangling_nonempty (rip : dict) (r : reference) (n : string) :
  dangling r rip n -> rip <> [].
Proof.
  intros [[Hn _] _] ->. destruct r; vm_compute in Hn; discriminate.
Qed.

Lemma verify_dict_seq (vrm : dict -> result unit) (rip : dict) :
  rip <> [] ->
  verify_dict vrm rip =
    seq_checks all_refs rip
      (rbind (if mem "interface" (keys rip)
              then rbind (py_getitem (VDict rip) "interface")
                     (fun interfaces =>
                        rbind (py_items interfaces) check_interfaces)
              else Ok tt)
         (fun _ => vrm rip)).
Proof.
  intros H. destruct rip; [congruence | reflexivity].
Qed.

Lemma in_all_refs (r : reference) : In r all_refs.
Proof. destruct r; simpl; auto. Qed.

Lemma stages_verify_raises (vrm : dict -> result unit)
    (render : string -> dict -> string) (st : state) (e : exn) :
  verify_dict vrm (mapping st) = Raise e ->
  stages vrm render st = (Raise e, st).
Proof.
  intros H. unfold stages, verify, bind, gets, lift. now rewrite H.
Qed.

(** C1, as amended: on a mapping whose references are strings and whose
    registries are mappings, a non-empty access-list name that is not a key
    of policy.access_list, or a non-empty prefix-list name whose
    hyphen-to-underscore form is not a key of policy.prefix_list, makes
    verify raise a ConfigError that quotes a dangling name; the stages stop
    there, with the mapping and the daemon untouched, so generate is not
    run on it, and the script prints the message and exits with status 1. *)
Theorem dangling_reference_rejected
    (defaults : Config.path -> dict) (vrm : dict -> result unit)
    (render : string -> dict -> string)
    (rip : dict) (r : reference) (n : string)
    (Hwf : refs_ok rip = true) (Hd : dangling r rip n) :
  exists r' n',
    dangling r' rip n' /\
    verify_dict vrm rip = Raise (ConfigError (ref_message r' n')) /\
    (forall log,
        stages vrm render (mk_state rip log)
        = (Raise (ConfigError (ref_message r' n')), mk_state rip log)) /\
    (forall conf,
        get_config defaults conf = rip ->
        main defaults vrm render conf
        = (Exited 1 [ref_message r' n'], mk_state rip [])).
Proof.
  pose proof (dangling_nonempty rip r n Hd) as Hne.
  destruct (seq_checks_dangling rip all_refs
              (rbind (if mem "interface" (keys rip)
                      then rbind (py_getitem (VDict rip) "interface")
                             (fun interfaces =>
                                rbind (py_items interfaces) check_interfaces)
                      else Ok tt)
                 (fun _ => vrm rip))
              r n Hwf (in_all_refs r) Hd) as (r' & n' & Hd' & Hseq).
  rewrite <- (verify_dict_seq vrm rip Hne) in Hseq.
  exists r', n'. split; [exact Hd' |]. split; [exact Hseq |]. split.
  - intros log. now apply stages_verify_raises.
  - intros conf Hc. unfold main. rewrite Hc.
    rewrite (stages_verify_raises vrm render (mk_state rip []) _ Hseq).
    reflexivity.
Qed.

Lemma dangling_reference_rejected_witness :
  exists r' n',
    dangling r' rip_dangling_acl n' /\
    verify_dict no_route_maps rip_dangling_acl
    = Raise (ConfigError (ref_message r' n')) /\
    (forall log,
        stages no_route_maps sample_render (mk_state rip_dangling_acl log)
        = (Raise (ConfigError (ref_message r' n')),
           mk_state rip_dangling_acl log)) /\
    (forall conf,
        get_config no_defaults conf = rip_dangling_acl ->
        main no_defaults no_route_maps sample_render conf
        = (Exited 1 [ref_message r' n'], mk_state rip_dangling_acl [])).
Proof.
  apply (dangling_reference_rejected no_defaults no_route_maps sample_render
           rip_dangling_acl AclOut "7").
  - reflexivity.
  - split; [split; [reflexivity | discriminate] |].
    exists ["5"]. split; reflexivity.
Defined.

(** The claim C1 as it is worded fails: [rip_hyphen] names the prefix-list
    [a-b], which is not a key of policy.prefix_list, and yet verify returns
    and generate stores its text in the mapping. *)
Lemma hyphenated_prefix_list_accepted :
  refs_ok rip_hyphen = true /\
  dangling_verbatim PrefixIn rip_hyphen "a-b" /\
  verify_dict no_route_maps rip_hyphen = Ok tt /\
  lookup "new_frr_config"
    (mapping (snd (stages no_route_maps sample_render
                     (mk_state rip_hyphen []))))
  = Some (VStr (sample_render "frr/rip.frr.tmpl" rip_hyphen)).
Proof.
  split; [reflexivity |]. split.
  - split; [split; [reflexivity | discriminate] |].
    exists ["a_b"]. split; reflexivity.
  - split; reflexivity.
Qed.

(** ** The interface checks *)

Lemma in_map_VStr (k : string) (ks : list string) :
  existsb (value_eqb (VStr k)) (map VStr ks) = mem k ks.
Proof.
  unfold mem. induction ks as [| k' ks IH]; [reflexivity |].
  change (existsb (value_eqb (VStr k)) (map VStr (k' :: ks)))
    with (value_eqb (VStr k) (VStr k')
          || existsb (value_eqb (VStr k)) (map VStr ks)).
  now rewrite IH.
Qed.

Lemma hashable_keys (ks : list string) : forallb hashable (map VStr ks) = true.
Proof. induction ks; simpl; auto. Qed.

Lemma py_set_dict (d : dict) : py_set (VDict d) = Ok (map VStr (keys d)).
Proof. unfold py_set. simpl. now rewrite hashable_keys. Qed.

Lemma subset_keys (k1 k2 : string) (d : dict) :
  subset [k1; k2] (map VStr (keys d)) = mem k1 (keys d) && mem k2 (keys d).
Proof.
  unfold subset. cbn [forallb]. rewrite !in_map_VStr.
  now rewrite Bool.andb_true_r.
Qed.

Lemma check_pair_cases (o : dict) (field k1 k2 msg : string) :
  set_ok (lookup field o) = true ->
  (check_pair o field k1 k2 msg = Ok tt
   /\ has_both k1 k2 (lookup field o) = false)
  \/ check_pair o field k1 k2 msg = Raise (ConfigError msg).
Proof.
  unfold check_pair, set_ok, has_both.
  change (py_in (VStr field) (VDict o)) with (Ok (mem field (keys o))).
  rewrite mem_keys_lookup. unfold py_getitem.
  destruct (lookup field o) as [v |]; unfold rbind; [| intros _; now left].
  destruct (py_set v) as [s |] eqn:Hs; [| discriminate]. intros _.
  destruct (subset [k1; k2] s) eqn:Hsub; [now right | left].
  split; [reflexivity |].
  destruct v; try reflexivity.
  rewrite py_set_dict in Hs. inversion Hs; subst.
  now rewrite <- subset_keys.
Qed.

Lemma check_interface_pairs (interface : string) (o : dict) :
  exists m1 m2,
    check_interface interface (VDict o) =
      rbind (check_pair o "authentication" "md5" "plaintext_password" m1)
        (fun _ => check_pair o "split_horizon" "disable" "poison_reverse" m2).
Proof. eexists. eexists. reflexivity. Qed.

(** A well-formed interface passes, and is then free of conflicts, or is
    rejected with a ConfigError. *)
Lemma check_interface_cases (interface : string) (opts : value) :
  iface_ok opts = true ->
  (check_interface interface opts = Ok tt /\ conflicting opts = false)
  \/ exists msg, check_interface interface opts = Raise (ConfigError msg).
Proof.
  destruct opts as [| b | s | l | o]; try discriminate.
  unfold iface_ok. rewrite Bool.andb_true_iff. intros [Ha Hs].
  destruct (check_interface_pairs interface o) as (m1 & m2 & ->).
  unfold conflicting.
  destruct (check_pair_cases o "authentication" "md5" "plaintext_password"
              m1 Ha) as [[-> ->] | ->]; unfold rbind at 1.
  - destruct (check_pair_cases o "split_horizon" "disable" "poison_reverse"
                m2 Hs) as [[-> ->] | ->].
    + now left.
    + right. now exists m2.
  - right. now exists m1.
Qed.

Lemma check_interfaces_cases (ifs : dict) :
  forallb (fun e => iface_ok (snd e)) ifs = true ->
  (check_interfaces ifs = Ok tt
   /\ forallb (fun e => negb (conflicting (snd e))) ifs = true)
  \/ exists msg, check_interfaces ifs = Raise (ConfigError msg).
Proof.
  induction ifs as [| [name opts] ifs IH]; simpl; [now left |].
  rewrite Bool.andb_true_iff. intros [Ho Hrest].
  destruct (check_interface_cases name opts Ho) as [[-> ->] | [msg ->]];
    simpl.
  - exact (IH Hrest).
  - right. now exists msg.
Qed.

(** C3: on a well-formed mapping, an interface entry whose authentication
    options contain both md5 and plaintext_password, or whose split_horizon
    options contain both disable and poison_reverse, makes verify raise a
    ConfigError. *)
Theorem conflicting_interface_rejected
    (vrm : dict -> result unit) (rip ifs : dict) (name : string)
    (opts : value)
    (Hwf : well_formed rip = true)
    (Hifs : lookup "interface" rip = Some (VDict ifs))
    (Hin : In (name, opts) ifs)
    (Hc : conflicting opts = true) :
  exists msg, verify_dict vrm rip = Raise (ConfigError msg).
Proof.
  unfold well_formed in Hwf. apply Bool.andb_true_iff in Hwf.
  destruct Hwf as [Hrefs Hifaces].
  assert (Hne : rip <> []) by (intros ->; discriminate).
  rewrite (verify_dict_seq vrm rip Hne).
  destruct (seq_checks_cases rip all_refs
              (rbind (if mem "interface" (keys rip)
                      then rbind (py_getitem (VDict rip) "interface")
                             (fun interfaces =>
                                rbind (py_items interfaces) check_interfaces)
                      else Ok tt)
                 (fun _ => vrm rip)) Hrefs)
    as [-> | (r & n & _ & ->)]; [| now eexists].
  rewrite mem_keys_lookup. unfold py_getitem. rewrite Hifs.
  unfold interfaces_ok in Hifaces. rewrite Hifs in Hifaces.
  cbn [rbind py_items].
  destruct (check_interfaces_cases ifs Hifaces) as [[_ Hfree] | [msg ->]].
  - rewrite forallb_forall in Hfree. specialize (Hfree (name, opts) Hin).
    simpl in Hfree. rewrite Hc in Hfree. discriminate.
  - now exists msg.
Qed.

Lemma conflicting_interface_rejected_witness :
  exists msg, verify_dict no_route_maps rip_both_auth = Raise (ConfigError msg).
Proof.
  apply (conflicting_interface_rejected no_route_maps rip_both_auth
           [("eth0", VDict []);
            ("eth1", VDict [("authentication",
                             VDict [("md5", VDict [("1", VDict [])]);
                                    ("plaintext_password", VStr "secret")])])]
           "eth1"
           (VDict [("authentication",
                    VDict [("md5", VDict [("1", VDict [])]);
                           ("plaintext_password", VStr "secret")])])).
  - reflexivity.
  - reflexivity.
  - simpl. right. left. reflexivity.
  - reflexivity.
Defined.

(** ** Mangled and verbatim lookups *)

Lemma ref_check_iff (r : reference) (rip : dict) (n : string)
    (ks : list string) :
  names r rip n ->
  registry_keys (ref_registry r) rip = Some ks ->
  (ref_check r rip = Ok tt <-> mem (ref_key r n) ks = true) /\
  (ref_check r rip = Raise (ConfigError (ref_message r n))
   <-> mem (ref_key r n) ks = false).
Proof.
  intros [Hn Hne] Hks. rewrite (ref_check_named r rip n ks Hn Hne Hks).
  destruct (mem (ref_key r n) ks); split; split;
    intros H; try reflexivity; discriminate.
Qed.

(** C9: a prefix-list reference passes its existence check exactly when
    the name with every hyphen replaced by an underscore is a key of
    policy.prefix_list, and is rejected with a ConfigError otherwise; an
    access-list reference passes exactly when the name as written is a key
    of policy.access_list.  So a prefix-list name that is itself a key is
    rejected when its mangled form is not, and one that is not a key is
    accepted when its mangled form is. *)
Theorem prefix_list_reference_mangled (rip : dict) (n : string)
    (ks : list string) :
  (names PrefixIn rip n ->
   registry_keys "policy.prefix_list" rip = Some ks ->
   (check_prefix_list_in rip = Ok tt
    <-> mem (replace "-"%char "_"%char n) ks = true) /\
   (check_prefix_list_in rip = Raise (ConfigError (ref_message PrefixIn n))
    <-> mem (replace "-"%char "_"%char n) ks = false)) /\
  (names PrefixOut rip n ->
   registry_keys "policy.prefix_list" rip = Some ks ->
   (check_prefix_list_out rip = Ok tt
    <-> mem (replace "-"%char "_"%char n) ks = true) /\
   (check_prefix_list_out rip = Raise (ConfigError (ref_message PrefixOut n))
    <-> mem (replace "-"%char "_"%char n) ks = false)) /\
  (names AclIn rip n ->
   registry_keys "policy.access_list" rip = Some ks ->
   (check_acl_in rip = Ok tt <-> mem n ks = true) /\
   (check_acl_in rip = Raise (ConfigError (ref_message AclIn n))
    <-> mem n ks = false)) /\
  (names AclOut rip n ->
   registry_keys "policy.access_list" rip = Some ks ->
   (check_acl_out rip = Ok tt <-> mem n ks = true) /\
   (check_acl_out rip = Raise (ConfigError (ref_message AclOut n))
    <-> mem n ks = false)) /\
  (names PrefixIn rip n ->
   registry_keys "policy.prefix_list" rip = Some ks ->
   mem n ks = true -> mem (replace "-"%char "_"%char n) ks = false ->
   check_prefix_list_in rip = Raise (ConfigError (ref_message PrefixIn n))) /\
  (names PrefixIn rip n ->
   registry_keys "policy.prefix_list" rip = Some ks ->
   mem n ks = false -> mem (replace "-"%char "_"%char n) ks = true ->
   check_prefix_list_in rip = Ok tt).
Proof.
  repeat split; intros;
    try (apply (ref_check_iff PrefixIn rip n ks); assumption);
    try (apply (ref_check_iff PrefixOut rip n ks); assumption);
    try (apply (ref_check_iff AclIn rip n ks); assumption);
    try (apply (ref_check_iff AclOut rip n ks); assumption).
Qed.

Lemma prefix_list_reference_mangled_witness :
  check_prefix_list_in rip_hyphen = Ok tt.
Proof.
  apply (prefix_list_reference_mangled rip_hyphen "a-b" ["a_b"]).
  - split; [reflexivity | discriminate].
  - reflexivity.
  - reflexivity.
  - reflexivity.
Defined.

(** ** Commits made by apply *)

Lemma frr_run (c : frr_call) (st : state) :
  frr c st = (Ok tt, mk_state (mapping st) (frr_log st ++ [c])).
Proof. reflexivity. Qed.

Lemma for_range_frr (n : nat) (c : frr_call) (st : state) :
  for_range n (frr c) st
  = (Ok tt, mk_state (mapping st) (frr_log st ++ repeat c n)).
Proof.
  revert st. induction n as [| n IH]; intros [rip log]; simpl.
  - unfold ret. now rewrite app_nil_r.
  - unfold bind. rewrite frr_run, IH. cbn [mapping frr_log].
    now rewrite <- app_assoc.
Qed.

Lemma apply_run (st : state) (text : value) :
  lookup "new_frr_config" (mapping st) = Some text ->
  apply st =
    (Ok tt,
     mk_state (mapping st)
       (frr_log st ++ apply_prelude text
        ++ if value_eqb text (VStr "")
           then repeat (commit_configuration frr_daemon) 5 else [])).
Proof.
  intros H. destruct st as [rip log]. cbn [mapping frr_log] in *.
  unfold apply, bind, gets, lift, py_getitem.
  rewrite !frr_run. cbn [mapping frr_log]. rewrite H.
  rewrite !frr_run. cbn [mapping frr_log]. rewrite H.
  destruct (value_eqb text (VStr "")).
  - rewrite for_range_frr. cbn [mapping frr_log].
    repeat rewrite <- app_assoc. reflexivity.
  - unfold ret. repeat rewrite <- app_assoc. reflexivity.
Qed.

Lemma count_commits_app (l1 l2 : list frr_call) :
  count_commits (l1 ++ l2) = count_commits l1 + count_commits l2.
Proof.
  unfold count_commits. now rewrite filter_app, length_app.
Qed.

(** C5: on a mapping that holds a rendered text, apply returns normally and
    calls commit_configuration once when the text is not the empty string
    and six times when it is: the commit after the edit and five more, run
    because the text is empty and for no other reason. *)
Theorem apply_commit_count (st : state) (text : string)
    (H : lookup "new_frr_config" (mapping st) = Some (VStr text)) :
  fst (apply st) = Ok tt /\
  count_commits (frr_log (snd (apply st)))
  = count_commits (frr_log st) + (if String.eqb text "" then 6 else 1) /\
  (text <> "" ->
   frr_log (snd (apply st))
   = (frr_log st ++ apply_prelude (VStr text))%list) /\
  (text = "" ->
   frr_log (snd (apply st))
   = (frr_log st ++ apply_prelude (VStr "")
      ++ repeat (commit_configuration frr_daemon) 5)%list).
Proof.
  rewrite (apply_run st (VStr text) H). cbn [fst snd frr_log value_eqb].
  split; [reflexivity |]. split; [| split].
  - rewrite count_commits_app. f_equal.
    destruct (String.eqb text ""); reflexivity.
  - intros Hne. apply String.eqb_neq in Hne. rewrite Hne.
    now rewrite app_nil_r.
  - intros ->. reflexivity.
Qed.

Lemma apply_commit_count_witness :
  count_commits
    (frr_log (snd (apply (mk_state [("new_frr_config", VStr "")] []))))
  = 6.
Proof.
  apply (apply_commit_count (mk_state [("new_frr_config", VStr "")] []) "").
  reflexivity.
Defined.

End RipFacts.

(* ===================================================================== *)
(** * Properties of system-login-radius.py *)
(* ===================================================================== *)

Module RadiusFacts.
Import Radius RadiusSpec.

Lemma append_empty_r (s : string) : s ++ "" = s.
Proof. induction s as [| c s IH]; simpl; [reflexivity | now rewrite IH]. Qed.

(** ** verify *)

Lemma getitem_disabled (s : value) :
  (exists v, py_getitem s "disabled" = Ok v
             /\ is_disabled s = truthy v /\ is_enabled s = negb (truthy v))
  \/ (exists e, py_getitem s "disabled" = Raise e
                /\ (forall m, e <> ConfigError m) /\ has_flag s = false).
Proof.
  unfold has_flag, is_disabled, is_enabled.
  destruct s as [| b | x | l | d]; simpl;
    try (right; exists TypeError; repeat split; discriminate).
  destruct (lookup "disabled" d) as [v |].
  - left. now exists v.
  - right. exists (KeyError "disabled"). repeat split; discriminate.
Qed.

Lemma all_disabled_ok (servers : list value) (fail : bool) :
  forallb has_flag servers = true ->
  all_disabled servers fail = Ok (fail && forallb is_disabled servers).
Proof.
  revert fail. induction servers as [| s servers IH]; intros fail; simpl.
  - intros _. now rewrite Bool.andb_true_r.
  - rewrite Bool.andb_true_iff. intros [Hs Hrest].
    destruct (getitem_disabled s) as [(v & -> & -> & _) | (e & _ & _ & Hf)];
      [| congruence].
    cbn [rbind]. rewrite (IH _ Hrest).
    destruct (truthy v), fail; reflexivity.
Qed.

Lemma all_disabled_raise (servers : list value) (fail : bool) :
  forallb has_flag servers = false ->
  exists e, all_disabled servers fail = Raise e
            /\ forall m, e <> ConfigError m.
Proof.
  revert fail. induction servers as [| s servers IH]; intros fail; simpl;
    [discriminate |].
  destruct (getitem_disabled s) as [(v & -> & Hd & He) | (e & -> & Hne & _)].
  - unfold has_flag. rewrite Hd, He. rewrite Bool.orb_negb_r.
    cbn [andb rbind]. intros H. exact (IH _ H).
  - intros _. now exists e.
Qed.

Lemma disabled_or_enabled (servers : list value) :
  forallb has_flag servers = true ->
  forallb is_disabled servers = negb (existsb is_enabled servers).
Proof.
  induction servers as [| s servers IH]; simpl; [reflexivity |].
  rewrite Bool.andb_true_iff. intros [Hs Hrest]. rewrite (IH Hrest).
  unfold has_flag in Hs.
  destruct (getitem_disabled s) as [(v & _ & -> & ->) | (e & _ & _ & Hf)].
  - destruct (truthy v); reflexivity.
  - unfold has_flag in Hf. congruence.
Qed.

Lemma disabled_has_flag (servers : list value) :
  forallb is_disabled servers = true -> forallb has_flag servers = true.
Proof.
  rewrite !forallb_forall. intros H s Hin. unfold has_flag.
  now rewrite (H s Hin).
Qed.

Lemma verify_dict_servers (radius : dict) (servers : list value) :
  lookup "server" radius = Some (VList servers) -> servers <> [] ->
  verify_dict radius =
    rbind (all_disabled servers true)
      (fun fail => if fail then Raise (ConfigError all_disabled_message)
                   else Ok tt).
Proof.
  intros Hs Hne. unfold verify_dict, py_getitem. rewrite Hs.
  destruct servers as [| s servers]; [congruence | reflexivity].
Qed.

Lemma verify_dict_cases (radius : dict) (servers : list value) :
  lookup "server" radius = Some (VList servers) -> servers <> [] ->
  (forallb has_flag servers = true /\
   verify_dict radius =
     if forallb is_disabled servers
     then Raise (ConfigError all_disabled_message) else Ok tt)
  \/ (forallb has_flag servers = false /\
      exists e, verify_dict radius = Raise e /\ forall m, e <> ConfigError m).
Proof.
  intros Hs Hne. rewrite (verify_dict_servers radius servers Hs Hne).
  destruct (forallb has_flag servers) eqn:Hf.
  - left. split; [reflexivity |].
    rewrite (all_disabled_ok servers true Hf). reflexivity.
  - right. split; [reflexivity |].
    destruct (all_disabled_raise servers true Hf) as (e & -> & He).
    now exists e.
Qed.

(** ** The rendered text *)

Lemma server_line_cases (src : option value) (s : value) :
  server_line src s = if is_disabled s then "" else entry_line src s.
Proof.
  unfold server_line, is_disabled, entry_line, jinja_attr, jinja_truthy.
  destruct s as [| b | x | l | d]; try reflexivity.
  destruct (lookup "disabled" d) as [v |]; [| reflexivity].
  destruct (truthy v); reflexivity.
Qed.

Lemma lines_of_enabled (src : option value) (servers : list value) :
  concat_all (map (server_line src) servers)
  = concat_all (map (entry_line src)
                  (filter (fun s => negb (is_disabled s)) servers)).
Proof.
  unfold concat_all.
  induction servers as [| s servers IH]; [reflexivity |].
  cbn [map filter fold_right]. rewrite server_line_cases, IH.
  destruct (is_disabled s); reflexivity.
Qed.

Lemma render_servers (radius : dict) (servers : list value) :
  lookup "server" radius = Some (VList servers) -> servers <> [] ->
  render radius =
    Ok (rendered
          (concat_all
             (map (entry_line (lookup "source_address" radius))
                (filter (fun s => negb (is_disabled s)) servers)))).
Proof.
  intros Hs Hne. unfold render, rendered. rewrite Hs.
  destruct servers as [| s servers]; [congruence |].
  cbn [truthy py_iter rbind]. now rewrite lines_of_enabled.
Qed.

(** C2: on a mapping with a non-empty server list, verify raises its
    ConfigError exactly when every server entry has disabled set; it
    returns exactly when every entry carries the flag and one has it
    clear.  The rendered text has one line per entry that is not disabled,
    in order, and none for a disabled one; with one disabled and one
    enabled server, verify returns and the text has the enabled server's
    line alone. *)
Theorem verify_all_disabled (radius : dict) (servers : list value)
    (Hs : lookup "server" radius = Some (VList servers))
    (Hne : servers <> []) :
  (verify_dict radius = Raise (ConfigError all_disabled_message)
   <-> forallb is_disabled servers = true) /\
  (forall msg, verify_dict radius = Raise (ConfigError msg) ->
               forallb is_disabled servers = true) /\
  (verify_dict radius = Ok tt
   <-> forallb has_flag servers = true /\ existsb is_enabled servers = true) /\
  render radius =
    Ok (rendered
          (concat_all
             (map (entry_line (lookup "source_address" radius))
                (filter (fun s => negb (is_disabled s)) servers)))) /\
  (forall s1 s2,
      is_disabled s1 = true -> is_enabled s2 = true ->
      servers = [s1; s2] \/ servers = [s2; s1] ->
      verify_dict radius = Ok tt /\
      render radius
      = Ok (rendered (entry_line (lookup "source_address" radius) s2))).
Proof.
  pose proof (render_servers radius servers Hs Hne) as Hrender.
  destruct (verify_dict_cases radius servers Hs Hne)
    as [[Hf Hv] | [Hf (e & Hv & He)]].
  - pose proof (disabled_or_enabled servers Hf) as Hde.
    assert (Hok : verify_dict radius = Ok tt
                  <-> forallb has_flag servers = true
                      /\ existsb is_enabled servers = true).
    { rewrite Hv, Hde. destruct (existsb is_enabled servers); simpl; split;
        try tauto; try discriminate. intros [_ H]; discriminate. }
    split; [| split; [| split; [exact Hok | split; [exact Hrender |]]]].
    + rewrite Hv. destruct (forallb is_disabled servers); split;
        intros H; try reflexivity; discriminate.
    + intros msg. rewrite Hv. destruct (forallb is_disabled servers);
        [reflexivity | discriminate].
    + intros s1 s2 H1 H2 Hshape. split.
      * apply Hok. split; [exact Hf |].
        destruct Hshape as [-> | ->]; simpl; rewrite H2;
          now rewrite ?Bool.orb_true_r.
      * rewrite Hrender. assert (H2' : is_disabled s2 = false).
        { unfold is_disabled, is_enabled in *.
          destruct s2 as [| b | x | l | d]; try discriminate.
          destruct (lookup "disabled" d); [| discriminate].
          now apply Bool.negb_true_iff. }
        destruct Hshape as [-> | ->]; cbn [filter map]; rewrite H1, H2';
          cbn [negb concat_all fold_right map]; now rewrite append_empty_r.
  - assert (Hnot : forallb is_disabled servers = true -> False).
    { intros H. rewrite (disabled_has_flag servers H) in Hf. discriminate. }
    split; [| split; [| split; [| split; [exact Hrender |]]]].
    + split; [| intros H; destruct (Hnot H)].
      rewrite Hv. intros H. inversion H; subst. destruct (He _ eq_refl).
    + intros msg. rewrite Hv. intros H. inversion H; subst.
      destruct (He _ eq_refl).
    + rewrite Hv. split; [discriminate |]. intros [H _]. congruence.
    + intros s1 s2 H1 H2 Hshape. exfalso.
      assert (forallb has_flag servers = true); [| congruence].
      unfold has_flag.
      destruct Hshape as [-> | ->]; simpl; rewrite H1, H2;
        now rewrite ?Bool.orb_true_r.
Qed.

Lemma verify_all_disabled_witness :
  verify_dict radius_two = Ok tt /\
  render radius_two
  = Ok (rendered (entry_line (Some (VStr "192.0.2.1")) server_on)).
Proof.
  refine (proj2 (proj2 (proj2 (proj2
            (verify_all_disabled radius_two [server_off; server_on]
               eq_refl _))))
            server_off server_on eq_refl eq_refl (or_introl eq_refl)).
  discriminate.
Defined.

(** ** generate *)

Lemma file_at_put (p : string) (f : file) (fs : list (string * file)) :
  file_at p (file_put p f fs) = Some f.
Proof.
  induction fs as [| [q g] fs IH]; simpl.
  - now rewrite String.eqb_refl.
  - destruct (String.eqb p q) eqn:E; simpl; now rewrite E.
Qed.

Lemma file_at_remove (p : string) (fs : list (string * file)) :
  file_at p (file_remove p fs) = None.
Proof.
  induction fs as [| [q g] fs IH]; simpl; [reflexivity |].
  destruct (String.eqb p q) eqn:E; simpl; [exact IH | now rewrite E].
Qed.

Lemma getpwnam_ids (name : string) (st : state) (ids : Z * Z) :
  ids_of name (sys st) = Some ids -> getpwnam name st = (Ok ids, st).
Proof.
  unfold ids_of, getpwnam.
  destruct (find _ (passwd (sys st))) as [[n i] |]; simpl; [| discriminate].
  intros H. now inversion H.
Qed.

Lemma bind_ok {S A B : Type} (m : M S A) (k : A -> M S B) (s s' : S)
    (a : A) :
  m s = (Ok a, s') -> bind m k s = k a s'.
Proof. intros H. unfold bind. now rewrite H. Qed.

(** Run the first stage of a sequence, given what it evaluates to. *)
Ltac step_with H :=
  match goal with
  | |- context [@bind ?S ?A ?B ?m ?k ?st] =>
      rewrite (@bind_ok S A B m k st _ _ H)
  end.

Lemma generate_active (st : state) (servers : list value) (text : string)
    (uid gid : Z) :
  lookup "server" (radius st) = Some (VList servers) -> servers <> [] ->
  render (radius st) = Ok text ->
  ids_of "root" (sys st) = Some (uid, gid) ->
  exists fs,
    generate st = (Ok tt, set_files fs st) /\
    file_at radius_config_file fs
    = Some {| content := text; owner := uid; group := gid;
              mode := owner_only |}.
Proof.
  intros Hs Hne Hr Hroot.
  destruct servers as [| s servers]; [congruence |].
  assert (H1 : lift (py_getitem (VDict (radius st)) "server") st
               = (Ok (VList (s :: servers)), st))
    by (unfold lift, py_getitem; now rewrite Hs).
  assert (H2 : lift (render (radius st)) st = (Ok text, st))
    by (unfold lift; now rewrite Hr).
  unfold generate.
  step_with (eq_refl : gets radius st = (Ok (radius st), st)).
  step_with H1.
  step_with (eq_refl : lift (py_len (VList (s :: servers))) st
                       = (Ok (S (length servers)), st)).
  cbn [Nat.ltb Nat.leb].
  step_with H2.
  set (f0 := opened radius_config_file text (sys st)).
  set (st1 := set_files (file_put radius_config_file f0 (files (sys st))) st).
  step_with (eq_refl : write_file radius_config_file text st = (Ok tt, st1)).
  step_with (getpwnam_ids "root" st1 (uid, gid) Hroot).
  step_with (getpwnam_ids "root" st1 (uid, gid) Hroot).
  cbn [fst snd].
  set (f1 := {| content := content f0; owner := uid; group := gid;
                mode := mode f0 |}).
  set (st2 := set_files (file_put radius_config_file f1 (files (sys st1))) st1).
  assert (Hchown : chown radius_config_file uid gid st1 = (Ok tt, st2)).
  { unfold chown. subst st1. cbn [sys files set_files].
    now rewrite file_at_put. }
  step_with Hchown.
  unfold chmod. subst st2. cbn [sys files set_files].
  rewrite file_at_put. subst st1. cbn [sys files set_files radius].
  eexists. split; [reflexivity |].
  rewrite file_at_put. subst f1 f0. unfold opened.
  destruct (file_at radius_config_file (files (sys st))); reflexivity.
Qed.

Lemma generate_inactive (st : state) :
  lookup "server" (radius st) = Some (VList []) ->
  generate st = unlink radius_config_file st.
Proof.
  intros Hs. unfold generate, bind, gets, lift, py_getitem. now rewrite Hs.
Qed.

(** C7: with a non-empty server list (and root in the password database)
    generate returns having left, at /etc/pam_radius_auth.conf, a file
    that holds the rendered text, belongs to root's uid and gid and has
    mode 0600; with an empty server list there is no file at that path
    once generate is through, and generate returns exactly when there was
    one to delete. *)
Theorem generate_config_file (st : state) :
  (forall servers uid gid,
      lookup "server" (radius st) = Some (VList servers) -> servers <> [] ->
      ids_of "root" (sys st) = Some (uid, gid) ->
      exists text,
        render (radius st) = Ok text /\
        fst (generate st) = Ok tt /\
        file_at radius_config_file (files (sys (snd (generate st))))
        = Some {| content := text; owner := uid; group := gid;
                  mode := owner_only |}) /\
  (lookup "server" (radius st) = Some (VList []) ->
   file_at radius_config_file (files (sys (snd (generate st)))) = None /\
   (fst (generate st) = Ok tt
    <-> file_at radius_config_file (files (sys st)) <> None)) /\
  Z.lor S_IRUSR S_IWUSR = owner_only.
Proof.
  split; [| split; [| reflexivity]].
  - intros servers uid gid Hs Hne Hroot.
    pose proof (render_servers (radius st) servers Hs Hne) as Hr.
    eexists. split; [exact Hr |].
    destruct (generate_active st servers _ uid gid Hs Hne Hr Hroot)
      as (fs & -> & Hfile).
    split; [reflexivity | exact Hfile].
  - intros Hs. rewrite (generate_inactive st Hs). unfold unlink.
    destruct (file_at radius_config_file (files (sys st))) eqn:E;
      cbn [fst snd sys files set_files].
    + rewrite file_at_remove. split; [reflexivity |].
      split; [discriminate | reflexivity].
    + split; [exact E |]. split; [discriminate | congruence].
Qed.

Lemma generate_config_file_witness :
  exists text,
    render radius_two = Ok text /\
    fst (generate (mk_state radius_two sys_bare)) = Ok tt /\
    file_at radius_config_file
      (files (sys (snd (generate (mk_state radius_two sys_bare)))))
    = Some {| content := text; owner := 0; group := 0; mode := owner_only |}.
Proof.
  refine (proj1 (generate_config_file (mk_state radius_two sys_bare))
            [server_off; server_on] 0%Z 0%Z eq_refl _ eq_refl).
  discriminate.
Defined.

(** ** get_config *)

Lemma server_cfg_shape (running : Config.node) (n : string) :
  let cfg := server_cfg (Config.mk running base_level) n in
  let conf := server_conf running n in
  keys cfg = ["address"; "disabled"; "key"; "port"; "timeout"] /\
  lookup "address" cfg = Some (VStr n) /\
  lookup "disabled" cfg = Some (VBool (Config.exists_ conf ["disable"])) /\
  lookup "key" cfg = Some (field_value conf "key" "") /\
  lookup "port" cfg = Some (field_value conf "port" "1812") /\
  lookup "timeout" cfg = Some (field_value conf "timeout" "2").
Proof.
  unfold server_cfg, field_value, server_conf, Config.set_level.
  cbn [Config.tree].
  set (conf := {| Config.tree := running;
                  Config.level := (base_level ++ ["server"; n])%list |}).
  destruct (Config.exists_ conf ["disable"]),
           (Config.exists_ conf ["key"]),
           (Config.exists_ conf ["port"]),
           (Config.exists_ conf ["timeout"]);
    repeat split; reflexivity.
Qed.

Lemma append_server_run (cfg : dict) (st : state) (l : list value) :
  lookup "server" (radius st) = Some (VList l) ->
  append_server cfg st
  = (Ok tt,
     mk_state (setitem "server" (VList (l ++ [VDict cfg])) (radius st))
       (sys st)).
Proof.
  intros H. unfold append_server, bind, gets, lift, py_getitem.
  now rewrite H.
Qed.

Lemma append_servers (conf : Config.t) (names : list string) :
  forall (st : state) (l : list value),
    lookup "server" (radius st) = Some (VList l) ->
    exists radius',
      for_each names (fun server => append_server (server_cfg conf server)) st
      = (Ok tt, mk_state radius' (sys st)) /\
      lookup "server" radius'
      = Some (VList (l ++ map (fun n => VDict (server_cfg conf n)) names)) /\
      forall k, k <> "server" -> lookup k radius' = lookup k (radius st).
Proof.
  induction names as [| n names IH]; intros st l Hl.
  - exists (radius st). destruct st as [r y]. simpl in *.
    rewrite app_nil_r. repeat split; auto.
  - cbn [for_each map]. unfold bind.
    rewrite (append_server_run (server_cfg conf n) st l Hl).
    set (st1 := mk_state _ (sys st)).
    destruct (IH st1 (l ++ [VDict (server_cfg conf n)])%list)
      as (radius' & Hrun & Hsrv & Hothers).
    { subst st1. cbn [radius]. apply DictFacts.lookup_setitem_eq. }
    exists radius'. split; [exact Hrun |]. split.
    + rewrite Hsrv. now rewrite <- app_assoc.
    + intros k Hk. rewrite (Hothers k Hk). subst st1. cbn [radius].
      apply DictFacts.lookup_setitem_neq. congruence.
Qed.

(** What [get_config] returns on a freshly loaded module: the servers are
    the server nodes of the store, in order. *)
Lemma get_config_run (running : Config.node) (s : system) :
  exists radius',
    get_config running (mk_state default_config_data s)
    = (Ok tt, mk_state radius' s) /\
    lookup "server" radius'
    = Some (VList
              (map (fun n => VDict (server_cfg (Config.mk running base_level) n))
                 (if Config.exists_ (Config.mk running []) base_level
                  then server_names running else []))).
Proof.
  unfold get_config.
  destruct (Config.exists_ (Config.mk running []) base_level); cbn [negb].
  - unfold Config.set_level. cbn [Config.tree]. unfold bind.
    set (conf := {| Config.tree := running; Config.level := base_level |}).
    destruct (Config.exists_ conf ["source-address"]).
    + cbn [gets modify set_radius radius sys].
      destruct (append_servers conf (Config.list_nodes conf ["server"])
                  (mk_state (setitem "source_address"
                               (Config.return_value conf ["source-address"])
                               default_config_data) s) [] eq_refl)
        as (radius' & Hrun & Hsrv & _).
      exists radius'. split; [exact Hrun | exact Hsrv].
    + cbn [ret].
      destruct (append_servers conf (Config.list_nodes conf ["server"])
                  (mk_state default_config_data s) [] eq_refl)
        as (radius' & Hrun & Hsrv & _).
      exists radius'. split; [exact Hrun | exact Hsrv].
  - exists default_config_data. split; reflexivity.
Qed.

Lemma field_value_str (conf : Config.t) (f default : string) :
  carries_value conf f = true ->
  exists x, field_value conf f default = VStr x
            /\ (Config.exists_ conf [f] = false -> x = default).
Proof.
  unfold carries_value, field_value, is_str.
  destruct (Config.exists_ conf [f]); cbn [negb orb].
  - destruct (Config.return_value conf [f]) as [| b | x | l | d];
      try discriminate.
    intros _. exists x. split; [reflexivity | discriminate].
  - intros _. exists default. split; reflexivity.
Qed.

(** C10: every server entry of the mapping returned by get_config is a
    dictionary with exactly the fields address, disabled, key, port and
    timeout, in that order; address is the node's name, disabled the
    boolean telling whether the node has a disable child, and key, port and
    timeout are what the store returns for their nodes, or the strings '',
    '1812' and '2' when the node is absent.  When the store holds a value
    for every such node that exists, all three are strings. *)
Theorem server_entry_fields (running : Config.node) (s : system) :
  exists radius' names,
    get_config running (mk_state default_config_data s)
    = (Ok tt, mk_state radius' s) /\
    lookup "server" radius'
    = Some (VList
              (map (fun n => VDict (server_cfg (Config.mk running base_level) n))
                 names)) /\
    names = (if Config.exists_ (Config.mk running []) base_level
             then server_names running else []) /\
    (forall n,
        let cfg := server_cfg (Config.mk running base_level) n in
        let conf := server_conf running n in
        keys cfg = ["address"; "disabled"; "key"; "port"; "timeout"] /\
        lookup "address" cfg = Some (VStr n) /\
        lookup "disabled" cfg = Some (VBool (Config.exists_ conf ["disable"])) /\
        lookup "key" cfg = Some (field_value conf "key" "") /\
        lookup "port" cfg = Some (field_value conf "port" "1812") /\
        lookup "timeout" cfg = Some (field_value conf "timeout" "2")) /\
    (values_present running = true ->
     forall n, In n names ->
       let cfg := server_cfg (Config.mk running base_level) n in
       let conf := server_conf running n in
       exists k p t,
         lookup "key" cfg = Some (VStr k) /\
         lookup "port" cfg = Some (VStr p) /\
         lookup "timeout" cfg = Some (VStr t) /\
         (Config.exists_ conf ["key"] = false -> k = "") /\
         (Config.exists_ conf ["port"] = false -> p = "1812") /\
         (Config.exists_ conf ["timeout"] = false -> t = "2")).
Proof.
  destruct (get_config_run running s) as (radius' & Hrun & Hsrv).
  exists radius'. eexists. split; [exact Hrun |]. split; [exact Hsrv |].
  split; [reflexivity |]. split.
  - intros n. apply server_cfg_shape.
  - intros Hvals n Hin cfg conf.
    assert (Hn : In n (server_names running)).
    { destruct (Config.exists_ (Config.mk running []) base_level);
        [exact Hin | destruct Hin]. }
    unfold values_present in Hvals. rewrite forallb_forall in Hvals.
    specialize (Hvals n Hn). cbn [forallb] in Hvals.
    apply Bool.andb_true_iff in Hvals. destruct Hvals as [Hk Hvals].
    apply Bool.andb_true_iff in Hvals. destruct Hvals as [Hp Hvals].
    apply Bool.andb_true_iff in Hvals. destruct Hvals as [Ht _].
    destruct (server_cfg_shape running n) as (_ & _ & _ & Ek & Ep & Et).
    destruct (field_value_str (server_conf running n) "key" "" Hk)
      as (k & Hk1 & Hk2).
    destruct (field_value_str (server_conf running n) "port" "1812" Hp)
      as (p & Hp1 & Hp2).
    destruct (field_value_str (server_conf running n) "timeout" "2" Ht)
      as (t & Ht1 & Ht2).
    exists k, p, t. subst cfg conf.
    rewrite Ek, Ep, Et, Hk1, Hp1, Ht1. repeat split; assumption.
Qed.

Lemma server_entry_fields_witness :
  exists k p t,
    lookup "key" (server_cfg (Config.mk tree_two_servers base_level) "10.0.0.1")
    = Some (VStr k) /\
    lookup "port" (server_cfg (Config.mk tree_two_servers base_level) "10.0.0.1")
    = Some (VStr p) /\
    lookup "timeout"
      (server_cfg (Config.mk tree_two_servers base_level) "10.0.0.1")
    = Some (VStr t) /\
    (Config.exists_ (server_conf tree_two_servers "10.0.0.1") ["key"] = false
     -> k = "") /\
    (Config.exists_ (server_conf tree_two_servers "10.0.0.1") ["port"] = false
     -> p = "1812") /\
    (Config.exists_ (server_conf tree_two_servers "10.0.0.1") ["timeout"] = false
     -> t = "2").
Proof.
  destruct (server_entry_fields tree_two_servers sys_bare)
    as (radius' & names & _ & _ & Hnames & _ & Hstr).
  apply (Hstr eq_refl "10.0.0.1").
  rewrite Hnames. simpl. left. reflexivity.
Defined.

End RadiusFacts.

(* ===================================================================== *)
(** * Properties of both scripts *)
(* ===================================================================== *)

Module ScriptFacts.
Import RipSpec RadiusSpec.

(** C4: when the subtree does not exist, the RIP get_config returns the
    empty mapping, on which generate stores the empty string under
    new_frr_config and nothing else; the RADIUS get_config returns the
    default mapping, with an empty server list and an empty
    source_address. *)
Theorem absent_subtree :
  (forall defaults render conf log,
      Config.exists_ conf ["protocols"; "rip"] = false ->
      Rip.get_config defaults conf = [] /\
      Rip.generate render (Rip.mk_state (Rip.get_config defaults conf) log)
      = (Ok tt, Rip.mk_state [("new_frr_config", VStr "")] log)) /\
  (forall running s,
      Config.exists_ (Config.mk running []) Radius.base_level = false ->
      Radius.get_config running
        (Radius.mk_state Radius.default_config_data s)
      = (Ok tt, Radius.mk_state Radius.default_config_data s) /\
      Radius.default_config_data
      = [("server", VList []); ("source_address", VStr "")]).
Proof.
  split.
  - intros defaults render conf log H.
    assert (E : Rip.get_config defaults conf = []).
    { unfold Rip.get_config. rewrite H. cbn [negb].
      now apply RipFacts.get_config_dict_absent. }
    rewrite E. split; reflexivity.
  - intros running s H. split; [| reflexivity].
    unfold Radius.get_config. now rewrite H.
Qed.

Lemma absent_subtree_witness :
  Rip.get_config no_defaults (Config.mk tree_two_servers []) = [] /\
  Rip.generate sample_render
    (Rip.mk_state (Rip.get_config no_defaults (Config.mk tree_two_servers []))
       [])
  = (Ok tt, Rip.mk_state [("new_frr_config", VStr "")] []).
Proof.
  apply (proj1 absent_subtree no_defaults sample_render
           (Config.mk tree_two_servers []) []).
  reflexivity.
Defined.

(** ** The mapping across the stages *)

Lemma keeps_bind {A B : Type} (m : M Radius.state A)
    (k : A -> M Radius.state B) :
  keeps_radius m -> (forall a, keeps_radius (k a)) -> keeps_radius (bind m k).
Proof.
  intros Hm Hk st. unfold bind. specialize (Hm st).
  destruct (m st) as [[a | e] st1]; cbn [snd] in *.
  - now rewrite (Hk a st1).
  - exact Hm.
Qed.

Lemma keeps_lift {A : Type} (r : result A) : keeps_radius (lift r).
Proof. intros st. reflexivity. Qed.

Lemma keeps_gets {A : Type} (f : Radius.state -> A) : keeps_radius (gets f).
Proof. intros st. reflexivity. Qed.

Lemma keeps_write_file (p text : string) :
  keeps_radius (Radius.write_file p text).
Proof. intros st. reflexivity. Qed.

Lemma keeps_getpwnam (name : string) : keeps_radius (Radius.getpwnam name).
Proof.
  intros st. unfold Radius.getpwnam.
  destruct (find _ _) as [[n i] |]; reflexivity.
Qed.

Lemma keeps_chown (p : string) (uid gid : Z) :
  keeps_radius (Radius.chown p uid gid).
Proof.
  intros st. unfold Radius.chown. destruct (Radius.file_at _ _); reflexivity.
Qed.

Lemma keeps_chmod (p : string) (m : Z) : keeps_radius (Radius.chmod p m).
Proof.
  intros st. unfold Radius.chmod. destruct (Radius.file_at _ _); reflexivity.
Qed.

Lemma keeps_unlink (p : string) : keeps_radius (Radius.unlink p).
Proof.
  intros st. unfold Radius.unlink. destruct (Radius.file_at _ _); reflexivity.
Qed.

Lemma keeps_os_system (cmd : string) : keeps_radius (Radius.os_system cmd).
Proof. intros st. reflexivity. Qed.

Lemma keeps_try_except {A : Type} (body : M Radius.state A)
    (wrap : exn -> exn) :
  keeps_radius body -> keeps_radius (Radius.try_except body wrap).
Proof.
  intros H st. unfold Radius.try_except. specialize (H st).
  destruct (body st) as [[a | e] st1]; exact H.
Qed.

Lemma radius_generate_keeps : keeps_radius Radius.generate.
Proof.
  unfold Radius.generate.
  apply keeps_bind; [apply keeps_gets | intros radius].
  apply keeps_bind; [apply keeps_lift | intros servers].
  apply keeps_bind; [apply keeps_lift | intros n].
  destruct (Nat.ltb 0 n).
  - apply keeps_bind; [apply keeps_lift | intros text].
    apply keeps_bind; [apply keeps_write_file | intros _].
    apply keeps_bind; [apply keeps_getpwnam | intros root].
    apply keeps_bind; [apply keeps_getpwnam | intros root'].
    apply keeps_bind; [apply keeps_chown | intros _].
    apply keeps_chmod.
  - apply keeps_unlink.
Qed.

Lemma radius_apply_keeps : keeps_radius Radius.apply.
Proof.
  unfold Radius.apply.
  apply keeps_bind; [apply keeps_gets | intros radius].
  apply keeps_bind; [apply keeps_lift | intros servers].
  apply keeps_bind; [apply keeps_lift | intros n].
  destruct (Nat.ltb 0 n); apply keeps_try_except;
    (apply keeps_bind; [apply keeps_os_system | intros _; apply keeps_os_system]).
Qed.

Lemma rip_apply_keeps (st : Rip.state) :
  Rip.mapping (snd (Rip.apply st)) = Rip.mapping st.
Proof.
  destruct (lookup "new_frr_config" (Rip.mapping st)) as [text |] eqn:E.
  - now rewrite (RipFacts.apply_run st text E).
  - destruct st as [rip log]. cbn [Rip.mapping] in E.
    unfold Rip.apply, bind, gets, lift, py_getitem.
    rewrite !RipFacts.frr_run. cbn [Rip.mapping Rip.frr_log]. now rewrite E.
Qed.

(** C8: verify leaves the mapping (and everything else) as it was; the RIP
    generate changes it in one place, the entry new_frr_config, which then
    holds a string, every other key keeping its value and its place; the
    RADIUS generate, and apply in both scripts, do not change the mapping. *)
Theorem mapping_frame :
  (forall vrm st, snd (Rip.verify vrm st) = st) /\
  (forall render st,
      exists text,
        lookup "new_frr_config" (Rip.mapping (snd (Rip.generate render st)))
        = Some (VStr text) /\
        (forall k, k <> "new_frr_config" ->
                   lookup k (Rip.mapping (snd (Rip.generate render st)))
                   = lookup k (Rip.mapping st)) /\
        filter (fun e => negb (String.eqb "new_frr_config" (fst e)))
          (Rip.mapping (snd (Rip.generate render st)))
        = filter (fun e => negb (String.eqb "new_frr_config" (fst e)))
            (Rip.mapping st) /\
        Rip.frr_log (snd (Rip.generate render st)) = Rip.frr_log st) /\
  (forall st, Rip.mapping (snd (Rip.apply st)) = Rip.mapping st) /\
  (forall st, snd (Radius.verify st) = st) /\
  (forall st, Radius.radius (snd (Radius.generate st)) = Radius.radius st) /\
  (forall st, Radius.radius (snd (Radius.apply st)) = Radius.radius st).
Proof.
  split; [| split; [| split; [| split; [| split]]]].
  - intros vrm st. reflexivity.
  - intros render [rip log].
    unfold Rip.generate, bind, gets, modify. cbn [Rip.mapping Rip.frr_log].
    destruct (negb (truthy (VDict rip))); eexists;
      cbn [snd Rip.mapping Rip.frr_log Rip.set_mapping];
      (split; [apply DictFacts.lookup_setitem_eq |]);
      (split; [intros k Hk; now apply DictFacts.lookup_setitem_neq |]);
      (split; [apply DictFacts.setitem_others | reflexivity]).
  - exact rip_apply_keeps.
  - intros st. reflexivity.
  - exact radius_generate_keeps.
  - exact radius_apply_keeps.
Qed.

Lemma mapping_frame_witness :
  lookup "interface"
    (Rip.mapping (snd (Rip.generate sample_render
                         (Rip.mk_state rip_both_auth []))))
  = lookup "interface" rip_both_auth.
Proof.
  destruct (proj1 (proj2 mapping_frame) sample_render
              (Rip.mk_state rip_both_auth [])) as (text & _ & Hothers & _).
  apply Hothers. discriminate.
Defined.

(** ** How a run ends *)

(** C6, as amended: when a stage raises a ConfigError, the script prints
    the error's message on standard output and exits with status 1; when
    every stage returns, it prints nothing and exits with status 0.  An
    exception of another kind is not caught by the handler. *)
Theorem config_error_exit :
  (forall defaults vrm render conf,
      let r := fst (Rip.stages vrm render
                      (Rip.mk_state (Rip.get_config defaults conf) [])) in
      (forall msg, r = Raise (ConfigError msg) ->
                   fst (Rip.main defaults vrm render conf) = Exited 1 [msg]) /\
      (r = Ok tt -> fst (Rip.main defaults vrm render conf) = Exited 0 []) /\
      (forall e, r = Raise e -> (forall msg, e <> ConfigError msg) ->
                 fst (Rip.main defaults vrm render conf) = Uncaught e)) /\
  (forall running s,
      let r := fst (Radius.stages running
                      (Radius.mk_state Radius.default_config_data s)) in
      (forall msg, r = Raise (ConfigError msg) ->
                   fst (Radius.main running s) = Exited 1 [msg]) /\
      (r = Ok tt -> fst (Radius.main running s) = Exited 0 []) /\
      (forall e, r = Raise e -> (forall msg, e <> ConfigError msg) ->
                 fst (Radius.main running s) = Uncaught e)).
Proof.
  split.
  - intros defaults vrm render conf r. subst r. unfold Rip.main.
    destruct (Rip.stages vrm render _) as [[[] | e] st]; cbn [fst].
    + split; [discriminate | split; [intros _; reflexivity | discriminate]].
    + split; [intros msg H; now inversion H |].
      split; [discriminate |].
      intros e' H Hne. inversion H; subst.
      destruct e'; try reflexivity. destruct (Hne msg eq_refl).
  - intros running s r. subst r. unfold Radius.main.
    destruct (Radius.stages running _) as [[[] | e] st]; cbn [fst].
    + split; [discriminate | split; [intros _; reflexivity | discriminate]].
    + split; [intros msg H; now inversion H |].
      split; [discriminate |].
      intros e' H Hne. inversion H; subst.
      destruct e'; try reflexivity. destruct (Hne msg eq_refl).
Qed.

Lemma config_error_exit_witness :
  fst (Radius.main tree_all_disabled sys_bare)
  = Exited 1 [all_disabled_message].
Proof.
  apply (proj1 (proj2 config_error_exit tree_all_disabled sys_bare)).
  reflexivity.
Defined.

(** The claim C6 as it is worded fails: with a source address configured,
    no server and no file at /etc/pam_radius_auth.conf, generate fails in
    os.unlink; the exception is not a ConfigError, so the handler does not
    catch it: the script prints nothing and does not reach exit(1). *)
Lemma unlink_failure_uncaught :
  fst (Radius.generate
         (snd (Radius.get_config tree_source_only
                 (Radius.mk_state Radius.default_config_data sys_bare))))
  = Raise (FileNotFoundError "/etc/pam_radius_auth.conf") /\
  fst (Radius.main tree_source_only sys_bare)
  = Uncaught (FileNotFoundError "/etc/pam_radius_auth.conf") /\
  forall stdout, fst (Radius.main tree_source_only sys_bare)
                 <> Exited 1 stdout.
Proof.
  split; [reflexivity |]. split; [reflexivity |].
  intros stdout H. vm_compute in H. discriminate.
Qed.

End ScriptFacts.

(* ===================================================================== *)
(** * Further properties of protocols_rip.py *)
(* ===================================================================== *)

Module RipMoreFacts.
Import Rip RipSpec RipMore RipFacts.

Lemma verify_dict_after_refs (vrm : dict -> result unit) (rip : dict) :
  rip <> [] ->
  verify_dict vrm rip = seq_checks all_refs rip (after_refs vrm rip).
Proof. intros H. now rewrite (verify_dict_seq vrm rip H). Qed.

(** ** Which reference is reported *)

Lemma earlier_passes (rip : dict) (r r' : reference) :
  refs_ok rip = true ->
  (forall r0 n0, ref_rank r0 < ref_rank r -> ~ dangling r0 rip n0) ->
  ref_rank r' < ref_rank r ->
  ref_check r' rip = Ok tt.
Proof.
  intros Hwf Hfirst Hlt.
  destruct (ref_check_cases rip r' Hwf) as [H | (n' & Hd' & _)];
    [exact H | destruct (Hfirst r' n' Hlt Hd')].
Qed.

(** X1: on a mapping whose references and registries are well-formed,
    verify reports the first dangling reference in the order inbound ACL,
    outbound ACL, inbound prefix-list, outbound prefix-list: its error
    quotes that name, whatever comes after it in the mapping. *)
Theorem first_dangling_reported
    (vrm : dict -> result unit) (rip : dict) (r : reference) (n : string)
    (Hwf : refs_ok rip = true) (Hd : dangling r rip n)
    (Hfirst : forall r' n', ref_rank r' < ref_rank r -> ~ dangling r' rip n') :
  verify_dict vrm rip = Raise (ConfigError (ref_message r n)).
Proof.
  rewrite (verify_dict_after_refs vrm rip (dangling_nonempty rip r n Hd)).
  pose proof (earlier_passes rip r) as Hpass.
  pose proof (dangling_check rip r n Hd) as Hraise.
  unfold all_refs. destruct r; cbn [seq_checks].
  - now rewrite Hraise.
  - rewrite (Hpass AclIn Hwf Hfirst); [| cbn; lia]. cbn [rbind].
    now rewrite Hraise.
  - rewrite (Hpass AclIn Hwf Hfirst); [| cbn; lia]. cbn [rbind].
    rewrite (Hpass AclOut Hwf Hfirst); [| cbn; lia]. cbn [rbind].
    now rewrite Hraise.
  - rewrite (Hpass AclIn Hwf Hfirst); [| cbn; lia]. cbn [rbind].
    rewrite (Hpass AclOut Hwf Hfirst); [| cbn; lia]. cbn [rbind].
    rewrite (Hpass PrefixIn Hwf Hfirst); [| cbn; lia]. cbn [rbind].
    now rewrite Hraise.
Qed.

Lemma first_dangling_reported_witness :
  verify_dict no_route_maps rip_two_dangling
  = Raise (ConfigError (ref_message AclIn "9")).
Proof.
  apply (first_dangling_reported no_route_maps rip_two_dangling AclIn "9").
  - reflexivity.
  - split; [split; [reflexivity | discriminate] |].
    exists ["5"]. split; reflexivity.
  - intros r' n' Hlt. cbn in Hlt. lia.
Defined.

(** ** The interface checks, message by message *)

Lemma check_pair_plain (o : dict) (field k1 k2 msg : string) :
  dict_or_absent (lookup field o) = true ->
  check_pair o field k1 k2 msg
  = if has_both k1 k2 (lookup field o) then Raise (ConfigError msg)
    else Ok tt.
Proof.
  unfold check_pair, dict_or_absent, has_both.
  change (py_in (VStr field) (VDict o)) with (Ok (mem field (keys o))).
  rewrite mem_keys_lookup. unfold py_getitem.
  destruct (lookup field o) as [[| b | x | l | d] |]; try discriminate;
    intros _; cbn [rbind]; [| reflexivity].
  rewrite py_set_dict. cbn [rbind]. now rewrite subset_keys.
Qed.

Lemma check_interface_plain (interface : string) (opts : value) :
  iface_plain opts = true ->
  check_interface interface opts
  = if conflicting opts
    then Raise (ConfigError (conflict_message interface opts))
    else Ok tt.
Proof.
  destruct opts as [| b | x | l | o]; try discriminate.
  unfold iface_plain. rewrite Bool.andb_true_iff. intros [Ha Hs].
  change (check_interface interface (VDict o))
    with (rbind (check_pair o "authentication" "md5" "plaintext_password"
                   auth_message)
            (fun _ => check_pair o "split_horizon" "disable" "poison_reverse"
                        (split_horizon_message interface))).
  rewrite (check_pair_plain o "authentication" _ _ _ Ha).
  rewrite (check_pair_plain o "split_horizon" _ _ _ Hs).
  unfold conflicting, conflict_message, auth_conflict.
  destruct (has_both "md5" "plaintext_password" (lookup "authentication" o));
    cbn [rbind orb]; [reflexivity |].
  destruct (has_both "disable" "poison_reverse" (lookup "split_horizon" o));
    reflexivity.
Qed.

Lemma check_interfaces_clean (ifs : dict) :
  forallb (fun e => iface_plain (snd e)) ifs = true ->
  forallb (fun e => negb (conflicting (snd e))) ifs = true ->
  check_interfaces ifs = Ok tt.
Proof.
  induction ifs as [| [name opts] ifs IH]; [reflexivity |].
  cbn [forallb snd check_interfaces]. rewrite !Bool.andb_true_iff.
  intros [Ho Hrest] [Hc Hcrest].
  rewrite (check_interface_plain name opts Ho).
  apply Bool.negb_true_iff in Hc. rewrite Hc. cbn [rbind].
  exact (IH Hrest Hcrest).
Qed.

Lemma check_interfaces_first (pre post : dict) (name : string) (opts : value) :
  forallb (fun e => iface_plain (snd e)) pre = true ->
  forallb (fun e => negb (conflicting (snd e))) pre = true ->
  iface_plain opts = true -> conflicting opts = true ->
  check_interfaces (pre ++ (name, opts) :: post)%list
  = Raise (ConfigError (conflict_message name opts)).
Proof.
  intros Hpre Hclean Ho Hc.
  induction pre as [| [n0 o0] pre IH].
  - cbn [app check_interfaces]. rewrite (check_interface_plain name opts Ho).
    now rewrite Hc.
  - cbn [forallb snd] in Hpre, Hclean.
    apply Bool.andb_true_iff in Hpre. destruct Hpre as [H0 Hpre].
    apply Bool.andb_true_iff in Hclean. destruct Hclean as [C0 Hclean].
    cbn [app check_interfaces]. rewrite (check_interface_plain n0 o0 H0).
    apply Bool.negb_true_iff in C0. rewrite C0. cbn [rbind].
    exact (IH Hpre Hclean).
Qed.

Lemma check_interfaces_raises (ifs : dict) :
  forallb (fun e => iface_plain (snd e)) ifs = true ->
  forallb (fun e => negb (conflicting (snd e))) ifs = false ->
  exists msg, check_interfaces ifs = Raise (ConfigError msg).
Proof.
  induction ifs as [| [name opts] ifs IH]; [discriminate |].
  cbn [forallb snd check_interfaces]. rewrite Bool.andb_true_iff.
  intros [Ho Hrest] Hc. rewrite (check_interface_plain name opts Ho).
  destruct (conflicting opts); cbn [negb andb rbind] in *.
  - now eexists.
  - exact (IH Hrest Hc).
Qed.

Lemma no_dangling_passes (rip : dict) (k : result unit) :
  refs_ok rip = true ->
  (forall r n, ~ dangling r rip n) ->
  seq_checks all_refs rip k = k.
Proof.
  intros Hwf Hnone.
  destruct (seq_checks_cases rip all_refs k Hwf) as [H | (r & n & Hd & _)];
    [exact H | destruct (Hnone r n Hd)].
Qed.

Lemma interface_part (rip : dict) :
  match lookup "interface" rip with
  | Some (VDict ifs) =>
      (if mem "interface" (keys rip)
       then rbind (py_getitem (VDict rip) "interface")
              (fun interfaces => rbind (py_items interfaces) check_interfaces)
       else Ok tt) = check_interfaces ifs
  | Some _ => True
  | None =>
      (if mem "interface" (keys rip)
       then rbind (py_getitem (VDict rip) "interface")
              (fun interfaces => rbind (py_items interfaces) check_interfaces)
       else Ok tt) = Ok tt
  end.
Proof.
  rewrite mem_keys_lookup. unfold py_getitem.
  destruct (lookup "interface" rip) as [[| b | x | l | ifs] |];
    try exact I; reflexivity.
Qed.

(** X2: on a non-empty mapping whose references are strings and whose
    registries and interface option sets are mappings, verify returns
    exactly when no reference dangles, no interface has a conflicting pair
    of options, and verify_route_maps returns. *)
Theorem verify_accepts_iff
    (vrm : dict -> result unit) (rip : dict)
    (Hne : rip <> [])
    (Hrefs : refs_ok rip = true)
    (Hifs : interfaces_plain rip = true) :
  verify_dict vrm rip = Ok tt <->
  (forall r n, ~ dangling r rip n) /\
  (forall ifs name opts,
      lookup "interface" rip = Some (VDict ifs) ->
      In (name, opts) ifs -> conflicting opts = false) /\
  vrm rip = Ok tt.
Proof.
  rewrite (verify_dict_after_refs vrm rip Hne).
  pose proof (interface_part rip) as Hpart.
  unfold interfaces_plain in Hifs. unfold after_refs.
  split.
  - intros Hok.
    assert (Hnone : forall r n, ~ dangling r rip n).
    { intros r n Hd.
      destruct (seq_checks_dangling rip all_refs (after_refs vrm rip) r n
                  Hrefs (in_all_refs r) Hd) as (r' & n' & _ & Hraise).
      unfold after_refs in Hraise. rewrite Hraise in Hok. discriminate. }
    rewrite (no_dangling_passes rip _ Hrefs Hnone) in Hok.
    split; [exact Hnone |].
    destruct (lookup "interface" rip) as [[| b | x | l | ifs] |];
      try discriminate.
    + rewrite Hpart in Hok.
      destruct (forallb (fun e => negb (conflicting (snd e))) ifs) eqn:Hc.
      * rewrite (check_interfaces_clean ifs Hifs Hc) in Hok.
        cbn [rbind] in Hok. split; [| exact Hok].
        intros ifs' name opts E Hin. inversion E; subst ifs'.
        rewrite forallb_forall in Hc. specialize (Hc (name, opts) Hin).
        now apply Bool.negb_true_iff in Hc.
      * destruct (check_interfaces_raises ifs Hifs Hc) as [msg Hr].
        rewrite Hr in Hok. discriminate.
    + rewrite Hpart in Hok. cbn [rbind] in Hok.
      split; [intros ifs name opts E; discriminate | exact Hok].
  - intros (Hnone & Hfree & Hvrm).
    rewrite (no_dangling_passes rip _ Hrefs Hnone).
    destruct (lookup "interface" rip) as [[| b | x | l | ifs] |];
      try discriminate.
    + rewrite Hpart.
      rewrite (check_interfaces_clean ifs Hifs); [exact Hvrm |].
      apply forallb_forall. intros [name opts] Hin. cbn [snd].
      now rewrite (Hfree ifs name opts eq_refl Hin).
    + rewrite Hpart. exact Hvrm.
Qed.

Lemma verify_accepts_iff_witness :
  verify_dict no_route_maps rip_clean = Ok tt.
Proof.
  apply (verify_accepts_iff no_route_maps rip_clean).
  - discriminate.
  - reflexivity.
  - reflexivity.
  - split; [| split; [| reflexivity]].
    + intros r n [[Hn Hne] (ks & Hks & Hm)].
      destruct r; vm_compute in Hn; try discriminate.
      inversion Hn; subst n. vm_compute in Hks. inversion Hks; subst ks.
      vm_compute in Hm. discriminate.
    + intros ifs name opts E Hin. vm_compute in E. inversion E; subst ifs.
      destruct Hin as [H | []]. now inversion H.
Defined.

(** X3: with no dangling reference, the interfaces are checked in the
    order of the mapping and the first conflicting one is reported: the
    error is the authentication text when its authentication options
    conflict, and otherwise the split-horizon text, which quotes the name
    of that interface. *)
Theorem first_conflict_reported
    (vrm : dict -> result unit) (rip pre post : dict) (name : string)
    (opts : value)
    (Hrefs : refs_ok rip = true)
    (Hnone : forall r n, ~ dangling r rip n)
    (Hifs : lookup "interface" rip = Some (VDict (pre ++ (name, opts) :: post)%list))
    (Hpre : forallb (fun e => iface_plain (snd e)) pre = true)
    (Hclean : forallb (fun e => negb (conflicting (snd e))) pre = true)
    (Ho : iface_plain opts = true)
    (Hc : conflicting opts = true) :
  verify_dict vrm rip = Raise (ConfigError (conflict_message name opts)) /\
  (auth_conflict opts = true -> conflict_message name opts = auth_message) /\
  (auth_conflict opts = false ->
   conflict_message name opts = split_horizon_message name).
Proof.
  assert (Hne : rip <> []) by (intros ->; discriminate).
  split.
  - rewrite (verify_dict_after_refs vrm rip Hne).
    rewrite (no_dangling_passes rip _ Hrefs Hnone). unfold after_refs.
    pose proof (interface_part rip) as Hpart. rewrite Hifs in Hpart.
    rewrite Hpart.
    now rewrite (check_interfaces_first pre post name opts Hpre Hclean Ho Hc).
  - unfold conflict_message. split; intros ->; reflexivity.
Qed.

Lemma first_conflict_reported_witness :
  verify_dict no_route_maps rip_split_horizon
  = Raise (ConfigError (split_horizon_message "eth1")).
Proof.
  apply (first_conflict_reported no_route_maps rip_split_horizon
           [("eth0", VDict [("split_horizon", VDict [("disable", VDict [])])])]
           []
           "eth1"
           (VDict [("split_horizon",
                    VDict [("disable", VDict []);
                           ("poison_reverse", VDict [])])])).
  - reflexivity.
  - intros r n [[Hn _] _]. destruct r; vm_compute in Hn; discriminate.
  - reflexivity.
  - reflexivity.
  - reflexivity.
  - reflexivity.
  - reflexivity.
Defined.

(** ** generate and apply in a row *)




(** X5: on a mapping without new_frr_config, apply raises KeyError after
    it has loaded the daemon's configuration and edited its three
    sections; it inserts nothing and commits nothing. *)
Theorem apply_without_text (st : state)
    (H : lookup "new_frr_config" (mapping st) = None) :
  apply st
  = (Raise (KeyError "new_frr_config"),
     mk_state (mapping st)
       (frr_log st
        ++ [load_configuration frr_daemon;
            modify_section "key chain \S+" "";
            modify_section "interface \S+" "";
            modify_section "router rip" ""])) /\
  count_commits (frr_log (snd (apply st))) = count_commits (frr_log st).
Proof.
  assert (E : apply st
              = (Raise (KeyError "new_frr_config"),
                 mk_state (mapping st)
                   (frr_log st
                    ++ [load_configuration frr_daemon;
                        modify_section "key chain \S+" "";
                        modify_section "interface \S+" "";
                        modify_section "router rip" ""]))).
  { destruct st as [rip log]. cbn [mapping frr_log] in *.
    unfold apply, bind, gets, lift, py_getitem.
    rewrite !frr_run. cbn [mapping frr_log]. rewrite H.
    repeat rewrite <- app_assoc. reflexivity. }
  split; [exact E |]. rewrite E. cbn [snd frr_log].
  rewrite count_commits_app. cbn. lia.
Qed.

Lemma apply_without_text_witness :
  count_commits (frr_log (snd (apply (mk_state rip_clean []))))
  = count_commits [].
Proof.
  apply (apply_without_text (mk_state rip_clean [])). reflexivity.
Defined.

(** ** A whole run *)




(** X7: when the subtree protocols rip does not exist, the script ends
    with status 0 whatever verify_route_maps would say (it is not asked):
    the mapping ends as the single entry new_frr_config with the empty
    text, and the daemon gets the three section removals, the empty
    insertion and six commits. *)
Theorem absent_subtree_run
    (defaults : Config.path -> dict) (vrm : dict -> result unit)
    (render : string -> dict -> string) (conf : Config.t)
    (H : Config.exists_ conf ["protocols"; "rip"] = false) :
  main defaults vrm render conf
  = (Exited 0 [],
     mk_state [("new_frr_config", VStr "")]
       (apply_prelude (VStr "")
        ++ repeat (commit_configuration frr_daemon) 5)).
Proof.
  assert (E : get_config defaults conf = []).
  { unfold get_config. rewrite H. cbn [negb].
    now apply get_config_dict_absent. }
  unfold main. rewrite E. reflexivity.
Qed.

Lemma absent_subtree_run_witness :
  main no_defaults (fun _ => Raise TypeError) sample_render
    (Config.mk RadiusSpec.tree_two_servers [])
  = (Exited 0 [],
     mk_state [("new_frr_config", VStr "")]
       (apply_prelude (VStr "")
        ++ repeat (commit_configuration frr_daemon) 5)).
Proof.
  apply (absent_subtree_run no_defaults (fun _ => Raise TypeError)
           sample_render (Config.mk RadiusSpec.tree_two_servers [])).
  reflexivity.
Defined.

(** ** Failures of verify on a well-formed mapping *)




(** The sample store gives the mapping the checks expect. *)
Example get_config_tree_rip :
  get_config no_defaults (Config.mk tree_rip []) = rip_clean.
Proof. reflexivity. Qed.

End RipMoreFacts.

(* ===================================================================== *)
(** * Further properties of system-login-radius.py *)
(* ===================================================================== *)

Module RadiusMoreFacts.
Import Radius RadiusSpec RadiusMore RadiusFacts.

Lemma setitem_same (k : string) (v : value) (d : dict) :
  lookup k d = Some v -> setitem k v d = d.
Proof.
  induction d as [| [k' v'] d IH]; simpl; [discriminate |].
  destruct (String.eqb k k') eqn:E.
  - intros H. now inversion H.
  - intros H. now rewrite (IH H).
Qed.

Lemma setitem_setitem (k : string) (v1 v2 : value) (d : dict) :
  setitem k v2 (setitem k v1 d) = setitem k v2 d.
Proof.
  induction d as [| [k' v'] d IH]; simpl.
  - now rewrite String.eqb_refl.
  - destruct (String.eqb k k') eqn:E; simpl; rewrite E;
      [reflexivity | now rewrite IH].
Qed.

(** ** get_config in closed form *)

Lemma append_servers_exact (conf : Config.t) (names : list string) :
  forall (st : state) (l : list value),
    lookup "server" (radius st) = Some (VList l) ->
    for_each names (fun server => append_server (server_cfg conf server)) st
    = (Ok tt,
       mk_state
         (setitem "server"
            (VList (l ++ map (fun n => VDict (server_cfg conf n)) names))
            (radius st))
         (sys st)).
Proof.
  induction names as [| n names IH]; intros st l Hl.
  - cbn [for_each map]. rewrite app_nil_r, (setitem_same _ _ _ Hl).
    now destruct st.
  - cbn [for_each map]. unfold bind.
    rewrite (append_server_run (server_cfg conf n) st l Hl).
    rewrite (IH _ (l ++ [VDict (server_cfg conf n)])%list);
      [| cbn [radius]; apply DictFacts.lookup_setitem_eq].
    cbn [radius sys]. rewrite setitem_setitem, <- app_assoc. reflexivity.
Qed.

Lemma get_config_closed (running : Config.node) (st : state)
    (l : list value) :
  lookup "server" (radius st) = Some (VList l) ->
  get_config running st
  = (Ok tt, mk_state (configured running (radius st) l) (sys st)).
Proof.
  intros Hl. unfold get_config, configured, entries.
  destruct (Config.exists_ (Config.mk running []) base_level);
    cbn [negb andb].
  - unfold Config.set_level. cbn [Config.tree]. unfold server_names.
    set (conf := {| Config.tree := running; Config.level := base_level |}).
    unfold bind at 1.
    destruct (Config.exists_ conf ["source-address"]).
    + unfold bind at 1. cbn [gets modify set_radius].
      rewrite (append_servers_exact conf _ _ l);
        [reflexivity |].
      cbn [radius set_radius].
      rewrite DictFacts.lookup_setitem_neq; [exact Hl |].
      discriminate.
    + cbn [ret]. now rewrite (append_servers_exact conf _ st l Hl).
  - cbn [ret map]. rewrite app_nil_r, (setitem_same _ _ _ Hl).
    now destruct st.
Qed.

Lemma get_config_fresh (running : Config.node) (s : system) :
  get_config running (mk_state default_config_data s)
  = (Ok tt,
     mk_state [("server", VList (entries running));
               ("source_address", source_address_of running (VStr ""))] s).
Proof.
  rewrite (get_config_closed running (mk_state default_config_data s) []
             eq_refl).
  unfold configured, source_address_of. cbn [radius sys app].
  destruct (Config.exists_ (Config.mk running []) base_level
            && Config.exists_ (Config.mk running base_level)
                 ["source-address"])%bool; reflexivity.
Qed.

(** X8: on a freshly loaded module get_config always returns, without
    touching the system, and the mapping it returns has exactly two keys:
    server, the list of the entries made for the server nodes in the
    store's order (none when the subtree does not exist), and
    source_address, the store's value when the node exists and the empty
    string otherwise. *)
Theorem get_config_result (running : Config.node) (s : system) :
  get_config running (mk_state default_config_data s)
  = (Ok tt,
     mk_state [("server", VList (entries running));
               ("source_address", source_address_of running (VStr ""))] s) /\
  (Config.exists_ (Config.mk running []) base_level = false ->
   entries running = [] /\
   source_address_of running (VStr "") = VStr "").
Proof.
  split; [apply get_config_fresh |].
  intros H. unfold entries, source_address_of. now rewrite H.
Qed.

Lemma get_config_result_witness :
  entries tree_empty = [] /\
  source_address_of tree_empty (VStr "") = VStr "".
Proof.
  apply (proj2 (get_config_result tree_empty sys_bare)). reflexivity.
Defined.

(** X9: get_config hands out the module's own dictionary and appends to
    its server list in place, so a second call in the same process finds
    the servers of the first and returns every entry twice. *)
Theorem get_config_twice (running : Config.node) (s : system) :
  bind (get_config running) (fun _ => get_config running)
    (mk_state default_config_data s)
  = (Ok tt,
     mk_state [("server", VList (entries running ++ entries running));
               ("source_address", source_address_of running (VStr ""))] s).
Proof.
  unfold bind. rewrite get_config_fresh.
  rewrite (get_config_closed running
             (mk_state [("server", VList (entries running));
                        ("source_address",
                         source_address_of running (VStr ""))] s)
             (entries running) eq_refl).
  unfold configured, source_address_of. cbn [radius sys].
  destruct (Config.exists_ (Config.mk running []) base_level
            && Config.exists_ (Config.mk running base_level)
                 ["source-address"])%bool; reflexivity.
Qed.

(** ** get_local_users *)

Lemma find_entry (name : string) (db : list (string * (Z * Z)))
    (ids : Z * Z) :
  In (name, ids) db ->
  exists q, find (fun e => String.eqb name (fst e)) db = Some q.
Proof.
  induction db as [| [n i] db IH]; [contradiction |].
  intros [H | H]; cbn [find fst].
  - inversion H; subst. rewrite String.eqb_refl. now eexists.
  - destruct (String.eqb name n); [now eexists | exact (IH H)].
Qed.

Lemma getpwnam_listed (st : state) (name : string) (ids : Z * Z) :
  In (name, ids) (passwd (sys st)) ->
  exists pw, getpwnam name st = (Ok pw, st)
             /\ uid_of name (sys st) = Some (fst pw).
Proof.
  intros Hin. destruct (find_entry name _ ids Hin) as [[n pw] Hq].
  exists pw. unfold getpwnam, uid_of, ids_of. now rewrite Hq.
Qed.

Lemma local_users_loop_run (st : state) (todo : list (string * (Z * Z))) :
  forall acc,
    (forall p, In p todo -> In p (passwd (sys st))) ->
    Users.local_users_loop todo acc st
    = (Ok (acc ++ map fst (filter (is_local_user (sys st)) todo))%list, st).
Proof.
  induction todo as [| [name ids] todo IH]; intros acc Hsub.
  - cbn [Users.local_users_loop filter map]. now rewrite app_nil_r.
  - cbn [Users.local_users_loop fst filter]. unfold bind.
    destruct (getpwnam_listed st name ids (Hsub _ (or_introl eq_refl)))
      as (pw & -> & Huid).
    unfold is_local_user. cbn [fst]. rewrite Huid.
    assert (Hrest : forall p, In p todo -> In p (passwd (sys st)))
      by (intros p Hp; apply Hsub; now right).
    destruct (Users.in_range (fst pw) 1000 29999); cbn [andb];
      [| exact (IH acc Hrest)].
    destruct (negb (mem name ["radius_user"; "radius_priv_user"]));
      [| exact (IH acc Hrest)].
    rewrite (IH _ Hrest). cbn [map fst]. now rewrite <- app_assoc.
Qed.

(** X10: get_local_users never fails and changes nothing.  It returns, in
    database order, the names of the entries whose uid (as getpwnam gives
    it for the name) is at least 1000 and below 29999, the upper bound
    excluded, and whose name is neither radius_user nor
    radius_priv_user. *)
Theorem get_local_users_result (st : state) :
  Users.get_local_users st
  = (Ok (map fst (filter (is_local_user (sys st)) (passwd (sys st)))), st) /\
  (forall u,
      In u (map fst (filter (is_local_user (sys st)) (passwd (sys st))))
      <-> (exists ids, In (u, ids) (passwd (sys st))) /\
          (exists uid, uid_of u (sys st) = Some uid
                       /\ (1000 <= uid < 29999)%Z) /\
          u <> "radius_user" /\ u <> "radius_priv_user").
Proof.
  split.
  - unfold Users.get_local_users, Users.getpwall, bind, gets.
    now rewrite (local_users_loop_run st _ [] (fun p H => H)).
  - intros u. rewrite in_map_iff. split.
    + intros ([n ids] & Hu & Hin). cbn [fst] in Hu. subst n.
      apply filter_In in Hin. destruct Hin as [Hin Hloc].
      split; [now exists ids |].
      unfold is_local_user in Hloc. cbn [fst] in Hloc.
      destruct (uid_of u (sys st)) as [uid |]; [| discriminate].
      apply Bool.andb_true_iff in Hloc. destruct Hloc as [Hr Hn].
      unfold Users.in_range in Hr. apply Bool.andb_true_iff in Hr.
      destruct Hr as [Hlo Hhi].
      split; [exists uid; split; [reflexivity | lia] |].
      apply Bool.negb_true_iff in Hn. cbn [mem existsb] in Hn.
      apply Bool.orb_false_iff in Hn. destruct Hn as [H1 Hn].
      apply Bool.orb_false_iff in Hn. destruct Hn as [H2 _].
      split; now apply String.eqb_neq.
    + intros ((ids & Hin) & (uid & Huid & Hr) & H1 & H2).
      exists (u, ids). split; [reflexivity |].
      apply filter_In. split; [exact Hin |].
      unfold is_local_user. cbn [fst]. rewrite Huid.
      apply Bool.andb_true_iff. split.
      * unfold Users.in_range. apply Bool.andb_true_iff. split; lia.
      * apply Bool.negb_true_iff. cbn [mem existsb].
        apply String.eqb_neq in H1. apply String.eqb_neq in H2.
        now rewrite H1, H2.
Qed.

(** The bounds and the exclusions on a sample database: uid 1000 and
    29998 are local, 29999 and 65534 are not, root is not, and radius_user
    is left out although its uid is in range. *)
Example get_local_users_sample :
  fst (Users.get_local_users (mk_state default_config_data sys_users))
  = Ok ["vyos"; "last"].
Proof. reflexivity. Qed.

(** ** Mappings without a server list *)

(** X11: on a mapping that has no server key, verify, generate and apply
    each raise KeyError for that key and leave the files and the commands
    as they were. *)
Theorem stages_without_server_key (st : state)
    (H : lookup "server" (radius st) = None) :
  verify st = (Raise (KeyError "server"), st) /\
  generate st = (Raise (KeyError "server"), st) /\
  apply st = (Raise (KeyError "server"), st).
Proof.
  unfold verify, generate, apply, verify_dict, bind, gets, lift, py_getitem.
  rewrite H. repeat split; reflexivity.
Qed.

Lemma stages_without_server_key_witness :
  generate (mk_state [("source_address", VStr "")] sys_bare)
  = (Raise (KeyError "server"),
     mk_state [("source_address", VStr "")] sys_bare).
Proof.
  apply (stages_without_server_key
           (mk_state [("source_address", VStr "")] sys_bare)).
  reflexivity.
Defined.

(** ** What generate leaves alone *)

Lemma file_at_put_other (p q : string) (f : file) (fs : list (string * file)) :
  q <> p -> file_at q (file_put p f fs) = file_at q fs.
Proof.
  intros Hne. pose proof (proj2 (String.eqb_neq q p) Hne) as Hqp.
  induction fs as [| [r g] fs IH]; simpl.
  - now rewrite Hqp.
  - destruct (String.eqb p r) eqn:E; simpl.
    + apply String.eqb_eq in E. subst r. now rewrite Hqp.
    + now rewrite IH.
Qed.

Lemma file_at_remove_other (p q : string) (fs : list (string * file)) :
  q <> p -> file_at q (file_remove p fs) = file_at q fs.
Proof.
  intros Hne. induction fs as [| [r g] fs IH]; simpl; [reflexivity |].
  destruct (String.eqb p r) eqn:E; simpl.
  - apply String.eqb_eq in E. subst r.
    apply String.eqb_neq in Hne. now rewrite Hne.
  - now rewrite IH.
Qed.

Lemma others_bind {A B : Type} (m : M state A) (k : A -> M state B) :
  keeps_others m -> (forall a, keeps_others (k a)) -> keeps_others (bind m k).
Proof.
  intros Hm Hk st. unfold bind. specialize (Hm st).
  destruct (m st) as [[a | e] st1]; cbn [snd] in *; [| exact Hm].
  specialize (Hk a st1).
  destruct Hm as (F1 & P1 & U1 & G1 & M1 & C1).
  destruct Hk as (F2 & P2 & U2 & G2 & M2 & C2).
  repeat split; try congruence.
  intros p Hp. now rewrite (F2 p Hp), (F1 p Hp).
Qed.

Lemma others_pure {A : Type} (m : M state A) :
  (forall st, snd (m st) = st) -> keeps_others m.
Proof. intros H st. rewrite (H st). repeat split; reflexivity. Qed.

Lemma others_set_files (p : string) (f : file) (st : state) :
  (forall q, q <> p ->
             file_at q (files (sys (set_files (file_put p f (files (sys st))) st)))
             = file_at q (files (sys st))).
Proof. intros q Hq. cbn [set_files sys files]. now apply file_at_put_other. Qed.

Lemma others_write_file (text : string) :
  keeps_others (write_file radius_config_file text).
Proof.
  intros st. unfold write_file, modify. cbn [snd].
  repeat split; try reflexivity. apply others_set_files.
Qed.

Lemma others_getpwnam (name : string) : keeps_others (getpwnam name).
Proof.
  apply others_pure. intros st. unfold getpwnam.
  destruct (find _ _) as [[n i] |]; reflexivity.
Qed.

Lemma others_chown (uid gid : Z) :
  keeps_others (chown radius_config_file uid gid).
Proof.
  intros st. unfold chown.
  destruct (file_at radius_config_file (files (sys st))); cbn [snd];
    repeat split; try reflexivity. apply others_set_files.
Qed.

Lemma others_chmod (m : Z) : keeps_others (chmod radius_config_file m).
Proof.
  intros st. unfold chmod.
  destruct (file_at radius_config_file (files (sys st))); cbn [snd];
    repeat split; try reflexivity. apply others_set_files.
Qed.

Lemma others_unlink : keeps_others (unlink radius_config_file).
Proof.
  intros st. unfold unlink.
  destruct (file_at radius_config_file (files (sys st))); cbn [snd];
    repeat split; try reflexivity.
  intros q Hq. cbn [set_files sys files]. now apply file_at_remove_other.
Qed.

Lemma generate_keeps_others : keeps_others generate.
Proof.
  unfold generate.
  apply others_bind; [now apply others_pure | intros radius].
  apply others_bind; [now apply others_pure | intros servers].
  apply others_bind; [now apply others_pure | intros n].
  destruct (Nat.ltb 0 n).
  - apply others_bind; [now apply others_pure | intros text].
    apply others_bind; [apply others_write_file | intros _].
    apply others_bind; [apply others_getpwnam | intros root].
    apply others_bind; [apply others_getpwnam | intros root'].
    apply others_bind; [apply others_chown | intros _].
    apply others_chmod.
  - apply others_unlink.
Qed.

(** X12: whatever the mapping and however it ends, generate touches no
    file other than /etc/pam_radius_auth.conf, runs no command, and leaves
    the password database and the mapping as they were. *)
Theorem generate_frame (st : state) :
  (forall p, p <> radius_config_file ->
             file_at p (files (sys (snd (generate st))))
             = file_at p (files (sys st))) /\
  passwd (sys (snd (generate st))) = passwd (sys st) /\
  commands (sys (snd (generate st))) = commands (sys st) /\
  radius (snd (generate st)) = radius st.
Proof.
  destruct (generate_keeps_others st) as (F & P & _ & _ & _ & C).
  repeat split; try assumption.
  apply ScriptFacts.radius_generate_keeps.
Qed.

Lemma generate_frame_witness :
  file_at "/etc/hostname"
    (files (sys (snd (generate (mk_state radius_two sys_users)))))
  = file_at "/etc/hostname" (files sys_users).
Proof.
  apply (proj1 (generate_frame (mk_state radius_two sys_users))).
  discriminate.
Defined.

(** ** Running generate again *)

Lemma generate_active_file (st : state) (servers : list value)
    (uid gid : Z) :
  lookup "server" (radius st) = Some (VList servers) -> servers <> [] ->
  ids_of "root" (sys st) = Some (uid, gid) ->
  exists text,
    render (radius st) = Ok text /\
    fst (generate st) = Ok tt /\
    file_at radius_config_file (files (sys (snd (generate st))))
    = Some {| content := text; owner := uid; group := gid;
              mode := owner_only |}.
Proof.
  intros Hs Hne Hroot.
  pose proof (render_servers (radius st) servers Hs Hne) as Hr.
  eexists. split; [exact Hr |].
  destruct (generate_active st servers _ uid gid Hs Hne Hr Hroot)
    as (fs & -> & Hfile).
  split; [reflexivity | exact Hfile].
Qed.

(** X13: with a non-empty server list and root in the password database,
    running generate a second time succeeds and changes no file: the
    configuration file keeps the text, owner and mode the first run gave
    it. *)
Theorem generate_idempotent (st : state) (servers : list value)
    (uid gid : Z)
    (Hs : lookup "server" (radius st) = Some (VList servers))
    (Hne : servers <> [])
    (Hroot : ids_of "root" (sys st) = Some (uid, gid)) :
  fst (generate (snd (generate st))) = Ok tt /\
  forall p,
    file_at p (files (sys (snd (generate (snd (generate st))))))
    = file_at p (files (sys (snd (generate st)))).
Proof.
  destruct (generate_frame st) as (_ & Hpw & _ & Hrad).
  destruct (generate_active_file st servers uid gid Hs Hne Hroot)
    as (text & Hr & _ & Hfile).
  set (st1 := snd (generate st)) in *.
  assert (Hs1 : lookup "server" (radius st1) = Some (VList servers))
    by now rewrite Hrad.
  assert (Hroot1 : ids_of "root" (sys st1) = Some (uid, gid))
    by (unfold ids_of in *; now rewrite Hpw).
  destruct (generate_active_file st1 servers uid gid Hs1 Hne Hroot1)
    as (text1 & Hr1 & Hok1 & Hfile1).
  rewrite Hrad, Hr in Hr1. inversion Hr1; subst text1.
  split; [exact Hok1 |]. intros p.
  destruct (String.eqb_spec p radius_config_file) as [-> | Hp].
  - now rewrite Hfile1, Hfile.
  - now apply (proj1 (generate_keeps_others st1)).
Qed.

Lemma generate_idempotent_witness :
  fst (generate (snd (generate (mk_state radius_two sys_users)))) = Ok tt.
Proof.
  refine (proj1 (generate_idempotent (mk_state radius_two sys_users)
                   [server_off; server_on] 0%Z 0%Z eq_refl _ eq_refl)).
  discriminate.
Defined.

(** X14: once generate has written the file, emptying the server list and
    running generate again returns and removes it, and every other file is
    as it was before the first run. *)
Theorem generate_then_remove (st : state) (servers : list value)
    (uid gid : Z)
    (Hs : lookup "server" (radius st) = Some (VList servers))
    (Hne : servers <> [])
    (Hroot : ids_of "root" (sys st) = Some (uid, gid)) :
  fst (generate (without_servers (snd (generate st)))) = Ok tt /\
  file_at radius_config_file
    (files (sys (snd (generate (without_servers (snd (generate st)))))))
  = None /\
  forall p,
    p <> radius_config_file ->
    file_at p
      (files (sys (snd (generate (without_servers (snd (generate st)))))))
    = file_at p (files (sys st)).
Proof.
  destruct (generate_active_file st servers uid gid Hs Hne Hroot)
    as (text & _ & _ & Hfile).
  destruct (generate_keeps_others st) as (Hothers & _).
  set (st1 := snd (generate st)) in *.
  assert (Hempty : lookup "server" (radius (without_servers st1))
                   = Some (VList [])).
  { unfold without_servers. cbn [set_radius radius].
    apply DictFacts.lookup_setitem_eq. }
  rewrite (generate_inactive _ Hempty). unfold unlink.
  change (files (sys (without_servers st1))) with (files (sys st1)).
  rewrite Hfile. cbn [fst snd]. split; [reflexivity |].
  cbn [set_files sys files].
  change (files (sys (without_servers st1))) with (files (sys st1)).
  split; [apply file_at_remove |].
  intros p Hp. rewrite (file_at_remove_other _ _ _ Hp). now apply Hothers.
Qed.

Lemma generate_then_remove_witness :
  file_at radius_config_file
    (files (sys (snd (generate (without_servers
                                  (snd (generate
                                          (mk_state radius_two sys_users))))))))
  = None.
Proof.
  refine (proj1 (proj2 (generate_then_remove (mk_state radius_two sys_users)
                          [server_off; server_on] 0%Z 0%Z eq_refl _ eq_refl))).
  discriminate.
Defined.

(** ** apply *)

Lemma radius_apply_run (st : state) (l : list value) :
  lookup "server" (radius st) = Some (VList l) ->
  apply st
  = (Ok tt,
     match l with
     | [] => add_command nss_remove (add_command pam_remove st)
     | _ => add_command nss_enable (add_command pam_enable st)
     end).
Proof.
  intros H. unfold apply, bind, gets, lift, py_getitem. rewrite H.
  destruct l; reflexivity.
Qed.



(** ** A whole run *)

Lemma entries_names (running : Config.node) :
  entries running
  = map (fun n => VDict (server_cfg (Config.mk running base_level) n))
      (configured_names running).
Proof. reflexivity. Qed.

Lemma entry_flag (running : Config.node) (n : string) :
  is_disabled (VDict (server_cfg (Config.mk running base_level) n))
  = node_disabled running n /\
  is_enabled (VDict (server_cfg (Config.mk running base_level) n))
  = negb (node_disabled running n).
Proof.
  destruct (server_cfg_shape running n) as (_ & _ & Hd & _).
  unfold is_disabled, is_enabled, node_disabled. cbv zeta in Hd.
  rewrite Hd. split; reflexivity.
Qed.

Lemma entries_have_flag (running : Config.node) :
  forallb has_flag (entries running) = true.
Proof.
  rewrite entries_names. apply forallb_forall. intros e He.
  apply in_map_iff in He. destruct He as (n & <- & _).
  unfold has_flag. destruct (entry_flag running n) as [-> ->].
  apply Bool.orb_negb_r.
Qed.

Lemma entries_disabled (running : Config.node) :
  forallb is_disabled (entries running)
  = forallb (node_disabled running) (configured_names running).
Proof.
  rewrite entries_names.
  induction (configured_names running) as [| n names IH]; [reflexivity |].
  cbn [map forallb]. rewrite IH.
  now destruct (entry_flag running n) as [-> _].
Qed.

Lemma stages_run (running : Config.node) (s : system) :
  stages running (mk_state default_config_data s)
  = match verify_dict (fresh_mapping running) with
    | Raise e => (Raise e, mk_state (fresh_mapping running) s)
    | Ok _ =>
        match generate (mk_state (fresh_mapping running) s) with
        | (Raise e, st) => (Raise e, st)
        | (Ok _, st) => apply st
        end
    end.
Proof.
  unfold stages. unfold bind at 1. rewrite get_config_fresh.
  fold (fresh_mapping running).
  unfold bind at 1, verify. unfold bind at 1. unfold gets, lift.
  cbn [radius].
  destruct (verify_dict (fresh_mapping running)) as [[] | e];
    [| reflexivity].
  unfold bind at 1.
  destruct (generate (mk_state (fresh_mapping running) s)) as [[[] | e] st];
    reflexivity.
Qed.

Lemma verify_fresh (running : Config.node) :
  verify_dict (fresh_mapping running)
  = if forallb (node_disabled running) (configured_names running)
       && negb (Nat.eqb (length (configured_names running)) 0)
    then Raise (ConfigError all_disabled_message) else Ok tt.
Proof.
  destruct (configured_names running) as [| n names] eqn:E.
  - unfold verify_dict, fresh_mapping. rewrite entries_names, E. reflexivity.
  - assert (Hne : entries running <> []).
    { rewrite entries_names, E. discriminate. }
    destruct (verify_dict_cases (fresh_mapping running) (entries running)
                eq_refl Hne) as [[_ ->] | [Hf _]].
    + rewrite entries_disabled, E. cbn [length Nat.eqb negb].
      now rewrite Bool.andb_true_r.
    + rewrite entries_have_flag in Hf. discriminate.
Qed.

(** X16: when the store has at least one RADIUS server and every server
    has a disable node, the script prints 'At least one RADIUS server must
    be active.', exits with status 1, and has touched nothing: no file is
    written or removed and no command is run. *)
Theorem main_all_disabled (running : Config.node) (s : system)
    (Hsome : configured_names running <> [])
    (Hall : forallb (node_disabled running) (configured_names running) = true) :
  main running s
  = (Exited 1 [all_disabled_message], mk_state (fresh_mapping running) s).
Proof.
  unfold main. rewrite stages_run, verify_fresh, Hall.
  destruct (configured_names running); [congruence | reflexivity].
Qed.

Lemma main_all_disabled_witness :
  main tree_all_disabled sys_bare
  = (Exited 1 [all_disabled_message],
     mk_state (fresh_mapping tree_all_disabled) sys_bare).
Proof.
  apply (main_all_disabled tree_all_disabled sys_bare).
  - discriminate.
  - reflexivity.
Defined.



(** X18: when the store has no RADIUS server (the subtree is absent, or
    has no server node), the script removes /etc/pam_radius_auth.conf, runs
    the two removing commands and exits with status 0 if that file was
    there; if it was not, os.unlink fails with FileNotFoundError, which the
    handler does not catch, and no command is run. *)
Theorem main_no_server (running : Config.node) (s : system)
    (Hnone : configured_names running = []) :
  (file_at radius_config_file (files s) <> None ->
   fst (main running s) = Exited 0 [] /\
   file_at radius_config_file (files (sys (snd (main running s)))) = None /\
   commands (sys (snd (main running s)))
   = (commands s ++ [pam_remove; nss_remove])%list) /\
  (file_at radius_config_file (files s) = None ->
   main running s
   = (Uncaught (FileNotFoundError radius_config_file),
      mk_state (fresh_mapping running) s)).
Proof.
  assert (E : entries running = []) by now rewrite entries_names, Hnone.
  assert (Hs : lookup "server" (fresh_mapping running) = Some (VList []))
    by (unfold fresh_mapping; now rewrite E).
  unfold main. rewrite stages_run, verify_fresh, Hnone. cbn [length andb].
  rewrite Bool.andb_false_r.
  rewrite (generate_inactive (mk_state (fresh_mapping running) s) Hs).
  unfold unlink. cbn [sys files].
  destruct (file_at radius_config_file (files s)) eqn:F.
  - split; [intros _ | intros H; discriminate].
    rewrite (radius_apply_run
               (set_files (file_remove radius_config_file (files s))
                  (mk_state (fresh_mapping running) s)) [] Hs).
    cbn [fst snd handle add_command set_files sys files commands].
    split; [reflexivity |]. split; [apply file_at_remove |].
    now rewrite <- app_assoc.
  - split; [intros H; congruence | intros _; reflexivity].
Qed.

Lemma main_no_server_witness :
  fst (main tree_source_only sys_configured) = Exited 0 [] /\
  file_at radius_config_file
    (files (sys (snd (main tree_source_only sys_configured)))) = None /\
  commands (sys (snd (main tree_source_only sys_configured)))
  = [pam_remove; nss_remove].
Proof.
  apply (proj1 (main_no_server tree_source_only sys_configured eq_refl)).
  discriminate.
Defined.

End RadiusMoreFacts.
